(** * text-hosting: the versioned document store, its HTTP routes and the
      share-token codec

    A shallow embedding of [storage.ts] (class [DocumentStore]), of the
    routes of [router.ts] that delete a document and serve its raw content,
    and of [auth.ts] ([createShareToken], [verifyShareToken]).

    Conventions of the embedding.
    - A JavaScript string is the list of its UTF-16 code units.
    - The key-value namespace is a finite map from key strings to values kept
      in parsed form: [JSON.stringify] followed by [JSON.parse] is the
      identity on the records and arrays the store writes.
    - An [async] method is a function from the store to an outcome and a new
      store; the tasks of one [Promise.all] write pairwise different keys and
      are run in the order in which they are listed.
    - What [nanoid] and [new Date().toISOString()] return during a call is an
      argument of the call; [crypto.subtle] is a parameter of the development.
*)

From Stdlib Require Import ZArith NArith List String Ascii Lia Bool DecimalString.
From stdpp Require Import base option list gmap.
Import ListNotations.

Set Default Proof Using "Type".

(** ** JavaScript strings *)

Abbreviation jsstring := (list N).

(** An ASCII literal as a JavaScript string. *)
Definition js (s : string) : jsstring :=
  map N_of_ascii (list_ascii_of_string s).

(** Truthiness of an optional string: [undefined] and the empty string are
    falsy. *)
Definition truthy (s : option jsstring) : bool :=
  match s with
  | Some (_ :: _) => true
  | _ => false
  end.

(** [a === b] on values that are a string or [undefined]. *)
Definition strictEq (a b : option jsstring) : bool :=
  bool_decide (a = b).

(** ECMAScript WhiteSpace and LineTerminator code points, all of them in the
    basic plane: what [String.prototype.trim] strips. *)
Definition isWhiteSpace (c : N) : bool :=
  ((9 <=? c) && (c <=? 13) || (c =? 32) || (c =? 160) || (c =? 5760)
   || (8192 <=? c) && (c <=? 8202) || (c =? 8232) || (c =? 8233)
   || (c =? 8239) || (c =? 8287) || (c =? 12288) || (c =? 65279))%N.

Fixpoint trimStart (s : jsstring) : jsstring :=
  match s with
  | c :: rest => if isWhiteSpace c then trimStart rest else s
  | [] => []
  end.

Definition trimEnd (s : jsstring) : jsstring := rev (trimStart (rev s)).

Definition trim (s : jsstring) : jsstring := trimEnd (trimStart s).

(** [token?.trim() ? token.trim() : undefined], the normalisation every
    mutating method applies to the caller's token and to the stored one. *)
Definition normalizeToken (token : option jsstring) : option jsstring :=
  match token with
  | Some t => if truthy (Some (trim t)) then Some (trim t) else None
  | None => None
  end.

(** *** [TextEncoder.encode]: UTF-8 of a UTF-16 string

    A surrogate pair is one code point of four bytes; a surrogate that is not
    part of a pair is replaced by U+FFFD (three bytes). *)

Definition isHighSurrogate (c : N) : bool := ((55296 <=? c) && (c <=? 56319))%N.
Definition isLowSurrogate (c : N) : bool := ((56320 <=? c) && (c <=? 57343))%N.

Definition utf8_2 (c : N) : list N :=
  [N.lor 192 (N.shiftr c 6); N.lor 128 (N.land c 63)].

Definition utf8_3 (c : N) : list N :=
  [N.lor 224 (N.shiftr c 12); N.lor 128 (N.land (N.shiftr c 6) 63);
   N.lor 128 (N.land c 63)].

Definition utf8_4 (c : N) : list N :=
  [N.lor 240 (N.shiftr c 18); N.lor 128 (N.land (N.shiftr c 12) 63);
   N.lor 128 (N.land (N.shiftr c 6) 63); N.lor 128 (N.land c 63)].

Definition replacementChar : N := 65533.

Fixpoint TextEncoder_encode (s : jsstring) : list N :=
  match s with
  | [] => []
  | c :: rest =>
      if (c <? 128)%N then c :: TextEncoder_encode rest
      else if (c <? 2048)%N then utf8_2 c ++ TextEncoder_encode rest
      else if isHighSurrogate c then
        match rest with
        | d :: rest' =>
            if isLowSurrogate d
            then utf8_4 (65536 + N.shiftl (c - 55296) 10 + (d - 56320))
                   ++ TextEncoder_encode rest'
            else utf8_3 replacementChar ++ TextEncoder_encode rest
        | [] => utf8_3 replacementChar
        end
      else if isLowSurrogate c
      then utf8_3 replacementChar ++ TextEncoder_encode rest
      else utf8_3 c ++ TextEncoder_encode rest
  end.

(** [new TextEncoder().encode(content).byteLength] *)
Definition byteLength (content : jsstring) : Z :=
  Z.of_nat (length (TextEncoder_encode content)).

(** Two lower-case hexadecimal digits per byte, as
    [b.toString(16).padStart(2, ...)] prints the elements of a [Uint8Array]. *)
Definition hexDigit (n : N) : N :=
  if (n <? 10)%N then (48 + n)%N else (87 + n)%N.

Definition hexByte (b : Byte.byte) : jsstring :=
  [hexDigit (N.shiftr (Byte.to_N b) 4); hexDigit (N.land (Byte.to_N b) 15)].

Definition toHex (bytes : list Byte.byte) : jsstring := concat (map hexByte bytes).

(** ** Data model ([types.ts]) *)

Module Types.

Record VersionMetadata := {
  versionId : jsstring;
  v_createdAt : jsstring;
  v_size : Z;
  hash : jsstring;
}.

Record StoredDocumentMetadata := {
  id : jsstring;
  title : jsstring;
  createdAt : jsstring;
  updatedAt : jsstring;
  size : Z;
  versions : list VersionMetadata;
  ownerToken : option jsstring;
  rawAccessKey : option jsstring;
}.

(** [Omit<StoredDocumentMetadata, "ownerToken"> & { isOwner; isPrivate }] *)
Record DocumentView := {
  dv_id : jsstring;
  dv_title : jsstring;
  dv_createdAt : jsstring;
  dv_updatedAt : jsstring;
  dv_size : Z;
  dv_versions : list VersionMetadata;
  isOwner : bool;
  isPrivate : bool;
  dv_rawAccessKey : option jsstring;
}.

Record DocumentVersion := {
  metadata : VersionMetadata;
  content : jsstring;
}.

Record DocumentListResponse := {
  documents : list DocumentView;
  cursor : option jsstring;
}.

Record ShareTokenPayload := {
  documentId : jsstring;
  expiresAt : Z;
}.

End Types.
Import Types.

(** ** The key-value namespace *)

Inductive KVValue :=
| VRecord (m : StoredDocumentMetadata)   (* JSON of [{ metadata }] *)
| VIndex (ids : list jsstring)           (* JSON of an array of ids *)
| VText (s : jsstring).                  (* raw text *)

Inductive KVWrite :=
| WPut (key : jsstring) (value : KVValue)
| WDelete (key : jsstring).

(** The entries of the namespace and the writes issued so far, newest first. *)
Record KV := {
  entries : gmap jsstring KVValue;
  writes : list KVWrite;
}.

(** ** Exceptions and asynchronous computations *)

Inductive ErrorMessage := NOT_FOUND | FORBIDDEN | FILE_TOO_LARGE.

Inductive Exception :=
| Error (message : ErrorMessage)               (* [new Error("...")] *)
| HttpError (status : Z) (message : string)    (* [errors.ts] *)
| TypeError.                                   (* raised by the runtime *)

Inductive Outcome (A : Type) :=
| Ok (a : A)
| Throw (e : Exception).
Arguments Ok {A} a.
Arguments Throw {A} e.

Definition Async (A : Type) : Type := KV -> Outcome A * KV.

Definition ret {A} (a : A) : Async A := fun kv => (Ok a, kv).

Definition throw {A} (e : Exception) : Async A := fun kv => (Throw e, kv).

Definition bind {A B} (m : Async A) (k : A -> Async B) : Async B :=
  fun kv =>
    match m kv with
    | (Ok a, kv') => k a kv'
    | (Throw e, kv') => (Throw e, kv')
    end.

Notation "'let*' x := m 'in' k" := (bind m (fun x => k))
  (at level 10, x name, m at level 100, k at level 200, only parsing).

(** [try { m } catch (error) { handler(error) }] *)
Definition try_catch {A} (m : Async A) (handler : Exception -> Async A) : Async A :=
  fun kv =>
    match m kv with
    | (Ok a, kv') => (Ok a, kv')
    | (Throw e, kv') => handler e kv'
    end.

Definition kv_get (key : jsstring) : Async (option KVValue) :=
  fun kv => (Ok (entries kv !! key), kv).

(** The namespace after [put(key, value)] and after [delete(key)]. *)
Definition put (key : jsstring) (value : KVValue) (kv : KV) : KV :=
  {| entries := <[key := value]> (entries kv);
     writes := WPut key value :: writes kv |}.

Definition del (key : jsstring) (kv : KV) : KV :=
  {| entries := delete key (entries kv);
     writes := WDelete key :: writes kv |}.

Definition kv_put (key : jsstring) (value : KVValue) : Async unit :=
  fun kv => (Ok tt, put key value kv).

Definition kv_delete (key : jsstring) : Async unit :=
  fun kv => (Ok tt, del key kv).

(** [for (const x of xs) await f(x)] *)
Fixpoint for_each {A} (f : A -> Async unit) (xs : list A) : Async unit :=
  match xs with
  | [] => ret tt
  | x :: rest => let* _ := f x in for_each f rest
  end.

(** ** Arrays *)

(** [array.indexOf(x)]: the first position of [x], or -1. *)
Fixpoint indexOf (l : list jsstring) (x : jsstring) : Z :=
  match l with
  | [] => -1
  | y :: rest =>
      if bool_decide (y = x) then 0
      else let i := indexOf rest x in if (i <? 0)%Z then -1 else (i + 1)%Z
  end.

(** [array.slice(start, end)] on integers: a negative bound counts from the
    end of the array, and both are clamped to it. *)
Definition relativeIndex (len i : Z) : Z :=
  if (i <? 0)%Z then Z.max (len + i) 0 else Z.min i len.

Definition slice {A} (l : list A) (start stop : Z) : list A :=
  let len := Z.of_nat (length l) in
  let k := relativeIndex len start in
  let final := relativeIndex len stop in
  take (Z.to_nat (final - k)) (drop (Z.to_nat k) l).

(** [array[i]] on an integer: [undefined] outside the array. *)
Definition at_index {A} (l : list A) (i : Z) : option A :=
  if (i <? 0)%Z then None else l !! Z.to_nat i.

(** [array.find(pred)] *)
Definition find_version (vid : jsstring) (vs : list VersionMetadata)
  : option VersionMetadata :=
  List.find (fun v => bool_decide (versionId v = vid)) vs.

(** ** What a call reads from its environment *)

(** The values [nanoid(12)], [nanoid(10)] and [nanoid(16)] and
    [new Date().toISOString()] return during one call of [createDocument] or
    [updateDocument]. *)
Record Ambient := {
  nanoid12 : jsstring;
  nanoid10 : jsstring;
  nanoid16 : jsstring;
  now : jsstring;
}.

(** ** [storage.ts] *)

Definition DOCUMENT_KEY_PREFIX : jsstring := js "doc:".
Definition VERSION_KEY_PREFIX : jsstring := js "version:".
Definition PUBLIC_INDEX_KEY : jsstring := js "documents:public:index".
Definition OWNER_INDEX_PREFIX : jsstring := js "documents:owner:".

Definition ownerIndexKey (ownerToken : jsstring) : jsstring :=
  OWNER_INDEX_PREFIX ++ ownerToken.

Definition documentKey (id : jsstring) : jsstring :=
  DOCUMENT_KEY_PREFIX ++ id.

Definition versionKey (id versionId : jsstring) : jsstring :=
  VERSION_KEY_PREFIX ++ id ++ js ":" ++ versionId.

Section DocumentStore.

(** [crypto.subtle.digest("SHA-256", bytes)] *)
Variable digestSHA256 : list N -> list Byte.byte.

(** [this.maxSize], an integer *)
Variable maxSize : Z.

Definition assertSize (content : jsstring) : Async unit :=
  let size := byteLength content in
  if (maxSize <? size)%Z then throw (Error FILE_TOO_LARGE) else ret tt.

Definition hashContent (content : jsstring) : jsstring :=
  toHex (digestSHA256 (TextEncoder_encode content)).

(** [kv.get(key, "json")] of a document key. A slot that does not hold a
    record is one the store never writes under such a key; reading it makes
    the caller fail on [record.metadata]. *)
Definition getRecord (id : jsstring) : Async (option StoredDocumentMetadata) :=
  let* stored := kv_get (documentKey id) in
  match stored with
  | None => ret None
  | Some (VRecord m) => ret (Some m)
  | Some _ => throw TypeError
  end.

Definition putRecord (id : jsstring) (m : StoredDocumentMetadata) : Async unit :=
  kv_put (documentKey id) (VRecord m).

Definition putVersion (id versionId content : jsstring) : Async unit :=
  kv_put (versionKey id versionId) (VText content).

Definition deleteRecord (id : jsstring) : Async unit :=
  kv_delete (documentKey id).

Definition deleteVersion (id versionId : jsstring) : Async unit :=
  kv_delete (versionKey id versionId).

(** An absent or empty value, and a value that is no JSON array, are the
    empty index. *)
Definition getIndex (key : jsstring) : Async (list jsstring) :=
  let* value := kv_get key in
  match value with
  | Some (VIndex ids) => ret ids
  | _ => ret []
  end.

Definition without (id : jsstring) (index : list jsstring) : list jsstring :=
  List.filter (fun existing => negb (bool_decide (existing = id))) index.

Definition pushToIndex (key id : jsstring) : Async unit :=
  let* index := getIndex key in
  let filtered := without id index in
  kv_put key (VIndex (id :: filtered)).

Definition removeFromIndex (key id : jsstring) : Async unit :=
  let* index := getIndex key in
  let filtered := without id index in
  kv_put key (VIndex filtered).

Definition touchOwnerIndex (ownerToken : option jsstring) (documentId : jsstring)
  : Async unit :=
  match ownerToken with
  | Some (c :: t) => pushToIndex (ownerIndexKey (c :: t)) documentId
  | _ => ret tt
  end.

Definition updatePublicIndex (documentId : jsstring) (isPublic : bool) : Async unit :=
  if isPublic then pushToIndex PUBLIC_INDEX_KEY documentId
  else removeFromIndex PUBLIC_INDEX_KEY documentId.

Definition toView (m : StoredDocumentMetadata) (viewerToken : option jsstring)
  : DocumentView :=
  let hasOwner := truthy (ownerToken m) in
  let isOwner := if hasOwner then strictEq viewerToken (ownerToken m) else false in
  {| dv_id := id m;
     dv_title := title m;
     dv_createdAt := createdAt m;
     dv_updatedAt := updatedAt m;
     dv_size := size m;
     dv_versions := versions m;
     isOwner := isOwner;
     isPrivate := hasOwner;
     dv_rawAccessKey := if hasOwner then rawAccessKey m else None |}.

Definition createDocument (env : Ambient)
    (title content : jsstring) (ownerToken : option jsstring)
  : Async (DocumentView * DocumentVersion) :=
  let* _ := assertSize content in
  let ownerToken := normalizeToken ownerToken in
  let id := nanoid12 env in
  let versionId := nanoid10 env in
  let now := now env in
  let size := byteLength content in
  let hash := hashContent content in
  let versionMetadata :=
    {| versionId := versionId; v_createdAt := now; v_size := size; hash := hash |} in
  let stored :=
    {| id := id; title := title; createdAt := now; updatedAt := now;
       size := size; versions := [versionMetadata];
       ownerToken := ownerToken;
       rawAccessKey := if truthy ownerToken then Some (nanoid16 env) else None |} in
  let* _ := putRecord id stored in
  let* _ := putVersion id versionId content in
  let* _ := updatePublicIndex id (negb (truthy ownerToken)) in
  let* _ := (if truthy ownerToken then touchOwnerIndex ownerToken id else ret tt) in
  ret (toView stored ownerToken,
       {| metadata := versionMetadata; content := content |}).

(** The ownership check shared by [updateDocument] and [deleteDocument]. *)
Definition checkOwner (existingOwner token : option jsstring) : Async unit :=
  if truthy existingOwner then
    if negb (strictEq existingOwner token) then throw (Error FORBIDDEN) else ret tt
  else if truthy token then throw (Error FORBIDDEN)
  else ret tt.

Definition updateDocument (env : Ambient)
    (id content : jsstring) (ownerToken : option jsstring)
  : Async (DocumentView * DocumentVersion) :=
  let* _ := assertSize content in
  let* record := getRecord id in
  match record with
  | None => throw (Error NOT_FOUND)
  | Some m =>
      let existingOwner := normalizeToken (Types.ownerToken m) in
      let ownerToken := normalizeToken ownerToken in
      let* _ := checkOwner existingOwner ownerToken in
      let versionId := nanoid10 env in
      let now := now env in
      let size := byteLength content in
      let hash := hashContent content in
      let versionMetadata :=
        {| versionId := versionId; v_createdAt := now; v_size := size;
           hash := hash |} in
      let m' :=
        {| id := Types.id m; title := title m; createdAt := createdAt m;
           updatedAt := now;
           size := size;
           versions := versionMetadata :: versions m;
           ownerToken := Types.ownerToken m;
           rawAccessKey := if truthy existingOwner then Some (nanoid16 env)
                           else rawAccessKey m |} in
      let* _ := putRecord id m' in
      let* _ := putVersion id versionId content in
      let* _ := updatePublicIndex (Types.id m') (negb (truthy existingOwner)) in
      let* _ := (if truthy existingOwner
                 then touchOwnerIndex existingOwner (Types.id m')
                 else ret tt) in
      ret (toView m' ownerToken,
           {| metadata := versionMetadata; content := content |})
  end.

Definition deleteDocument (id : jsstring) (ownerToken : option jsstring)
  : Async unit :=
  let* record := getRecord id in
  match record with
  | None => throw (Error NOT_FOUND)
  | Some m =>
      let existingOwner := normalizeToken (Types.ownerToken m) in
      let token := normalizeToken ownerToken in
      let* _ := checkOwner existingOwner token in
      let* _ := deleteRecord id in
      let* _ := updatePublicIndex id false in
      let* _ := (match existingOwner with
                 | Some (c :: t) => removeFromIndex (ownerIndexKey (c :: t)) id
                 | _ => ret tt
                 end) in
      for_each (fun version => deleteVersion id (versionId version)) (versions m)
  end.

Definition getDocument (id : jsstring) (viewerToken : option jsstring)
  : Async (option DocumentView) :=
  let* record := getRecord id in
  match record with
  | None => ret None
  | Some m => ret (Some (toView m viewerToken))
  end.

(** [!content] holds of an absent value and of the empty string alike. *)
Definition getVersion (id versionId : jsstring) : Async (option DocumentVersion) :=
  let* content := kv_get (versionKey id versionId) in
  match content with
  | None => ret None
  | Some (VText []) => ret None
  | Some (VText content) =>
      let* record := getRecord id in
      match record with
      | None => ret None
      | Some m =>
          match find_version versionId (versions m) with
          | None => ret None
          | Some versionMetadata =>
              ret (Some {| metadata := versionMetadata; content := content |})
          end
      end
  | Some _ => throw TypeError
  end.

Fixpoint loadViews (ids : list jsstring) (viewerToken : option jsstring)
  : Async (list DocumentView) :=
  match ids with
  | [] => ret []
  | id :: rest =>
      let* record := getRecord id in
      match record with
      | None => loadViews rest viewerToken
      | Some m =>
          if truthy (ownerToken m) && negb (strictEq (ownerToken m) viewerToken)
          then loadViews rest viewerToken
          else
            let* result := loadViews rest viewerToken in
            ret (toView m viewerToken :: result)
      end
  end.

Definition sliceIndex (index : list jsstring) (limit : Z) (cursor : option jsstring)
  : list jsstring * option jsstring :=
  let start :=
    match cursor with
    | Some (c :: t) => Z.max (indexOf index (c :: t) + 1) 0
    | _ => 0
    end%Z in
  let slice := slice index start (start + limit) in
  let nextCursor :=
    if (start + limit <? Z.of_nat (length index))%Z
    then at_index index (start + limit - 1)
    else None in
  (slice, nextCursor).

Definition listPublicDocuments (viewerToken : option jsstring) (limit : Z)
    (cursor : option jsstring) : Async DocumentListResponse :=
  let* index := getIndex PUBLIC_INDEX_KEY in
  let '(slice, nextCursor) := sliceIndex index limit cursor in
  let* documents := loadViews slice viewerToken in
  ret {| documents := documents; cursor := nextCursor |}.

Definition listOwnerDocuments (ownerToken : option jsstring) (limit : Z)
    (cursor : option jsstring) : Async DocumentListResponse :=
  match ownerToken with
  | Some (c :: t) =>
      let* index := getIndex (ownerIndexKey (c :: t)) in
      let '(slice, nextCursor) := sliceIndex index limit cursor in
      let* documents := loadViews slice ownerToken in
      ret {| documents := documents; cursor := nextCursor |}
  | _ => ret {| documents := []; cursor := None |}
  end.

End DocumentStore.

(** ** [errors.ts] *)

Definition notFound : Exception := HttpError 404 "Not found".
Definition forbidden (message : string) : Exception := HttpError 403 message.

(** ** [router.ts]: the routes that delete a document and serve raw content *)

(** What the two routes read of a request: the [x-user-token] header
    ([getHeaderToken]), the [:id] parameter and the query. *)
Record Request := {
  header_x_user_token : option jsstring;
  param_id : jsstring;
  query_versionId : option jsstring;
  query_rawKey : option jsstring;
}.

Definition getHeaderToken (request : Request) : option jsstring :=
  header_x_user_token request.

(** The body and the file name of a plain-text response. *)
Record TextResponse := {
  body : jsstring;
  filename : jsstring;
}.

(** [app.delete("/api/documents/:id", ...)]; the result stands for the
    response [{ ok: true }]. *)
Definition route_delete (request : Request) : Async unit :=
  let id := param_id request in
  let ownerToken := getHeaderToken request in
  if negb (truthy ownerToken) then throw (forbidden "owner token required")
  else
    try_catch (deleteDocument id ownerToken)
      (fun error =>
         match error with
         | Error NOT_FOUND => throw notFound
         | Error FORBIDDEN => throw (forbidden "owner token required")
         | _ => throw error
         end).

(** [app.get("/api/documents/:id/raw", ...)] *)
Definition route_raw (request : Request) : Async TextResponse :=
  let id := param_id request in
  let versionId := query_versionId request in
  let rawKey := query_rawKey request in
  let viewerToken := getHeaderToken request in
  let* document := getDocument id viewerToken in
  match document with
  | None => throw notFound
  | Some document =>
      let* _ :=
        (if negb (isOwner document) && isPrivate document then
           if negb (truthy rawKey) || negb (truthy (dv_rawAccessKey document))
              || negb (strictEq rawKey (dv_rawAccessKey document))
           then throw (forbidden "owner token required")
           else ret tt
         else ret tt) in
      let* version :=
        (match versionId with
         | Some (c :: t) =>
             match find_version (c :: t) (dv_versions document) with
             | None => throw notFound
             | Some found => ret (Some found)
             end
         | _ => ret (head (dv_versions document))
         end) in
      match version with
      | None => throw TypeError
      | Some version =>
          let* fullVersion := getVersion id (Types.versionId version) in
          match fullVersion with
          | None => throw notFound
          | Some fullVersion =>
              ret {| body := content fullVersion;
                     filename := dv_title document ++ js ".txt" |}
          end
      end
  end.

(** ** [auth.ts] *)

(** *** [btoa] and [atob] *)

(** The base64 alphabet: [A-Z], [a-z], [0-9], [+], [/]. *)
Definition b64char (n : N) : N :=
  if (n <? 26)%N then (65 + n)%N
  else if (n <? 52)%N then (71 + n)%N
  else if (n <? 62)%N then (n - 4)%N
  else if (n =? 62)%N then 43%N
  else 47%N.

Definition b64value (c : N) : option N :=
  if ((65 <=? c) && (c <=? 90))%N then Some (c - 65)%N
  else if ((97 <=? c) && (c <=? 122))%N then Some (c - 71)%N
  else if ((48 <=? c) && (c <=? 57))%N then Some (c + 4)%N
  else if (c =? 43)%N then Some 62%N
  else if (c =? 47)%N then Some 63%N
  else None.

Definition pad : N := 61.

Fixpoint b64encode (bytes : list N) : jsstring :=
  match bytes with
  | a :: b :: c :: rest =>
      b64char (a / 4) :: b64char (a mod 4 * 16 + b / 16)
        :: b64char (b mod 16 * 4 + c / 64) :: b64char (c mod 64)
        :: b64encode rest
  | [a; b] =>
      [b64char (a / 4); b64char (a mod 4 * 16 + b / 16);
       b64char (b mod 16 * 4); pad]
  | [a] => [b64char (a / 4); b64char (a mod 4 * 16); pad; pad]
  | [] => []
  end%N.

(** [btoa] raises on a code unit above U+00FF. *)
Definition btoa (s : jsstring) : option jsstring :=
  if forallb (fun c => (c <=? 255)%N) s then Some (b64encode s) else None.

Definition isAsciiWhitespace (c : N) : bool :=
  ((c =? 9) || (c =? 10) || (c =? 12) || (c =? 13) || (c =? 32))%N.

(** One or two trailing [=] are dropped when the length is a multiple of 4. *)
Definition stripPadding (s : jsstring) : jsstring :=
  if (length s mod 4 =? 0)%nat then
    match rev s with
    | p1 :: p2 :: r =>
        if (p1 =? pad)%N then
          if (p2 =? pad)%N then rev r else rev (p2 :: r)
        else s
    | [p1] => if (p1 =? pad)%N then [] else s
    | [] => s
    end
  else s.

(** Sextets to bytes; the bits left over by a last group of two or three
    sextets are dropped. *)
Fixpoint b64decode (sextets : list N) : list N :=
  match sextets with
  | a :: b :: c :: d :: rest =>
      (a * 4 + b / 16) :: (b mod 16 * 16 + c / 4) :: (c mod 4 * 64 + d)
        :: b64decode rest
  | [a; b; c] => [a * 4 + b / 16; b mod 16 * 16 + c / 4]
  | [a; b] => [a * 4 + b / 16]
  | _ => []
  end%N.

(** [atob], the forgiving base64 decoder; [None] when it raises. *)
Definition atob (s : jsstring) : option jsstring :=
  let s := List.filter (fun c => negb (isAsciiWhitespace c)) s in
  let s := stripPadding s in
  if (length s mod 4 =? 1)%nat then None
  else
    match mapM b64value s with
    | Some sextets => Some (b64decode sextets)
    | None => None
    end.

(** *** [JSON.stringify] of a payload *)

Definition dquote : N := 34.
Definition backslash : N := 92.

Definition quoted (s : jsstring) : jsstring := dquote :: s ++ [dquote].

Definition hex4 (c : N) : jsstring :=
  [hexDigit (N.shiftr c 12); hexDigit (N.land (N.shiftr c 8) 15);
   hexDigit (N.land (N.shiftr c 4) 15); hexDigit (N.land c 15)].

(** [\uXXXX] *)
Definition unicodeEscape (c : N) : jsstring := backslash :: js "u" ++ hex4 c.

(** QuoteJSONString without the enclosing quotes: the short escapes, [\uXXXX]
    for the other control characters and for a surrogate outside a pair, any
    other code unit as it is. *)
Fixpoint quoteJSON (s : jsstring) : jsstring :=
  match s with
  | [] => []
  | c :: rest =>
      if (c =? dquote)%N then backslash :: dquote :: quoteJSON rest
      else if (c =? backslash)%N then backslash :: backslash :: quoteJSON rest
      else if (c =? 8)%N then backslash :: js "b" ++ quoteJSON rest
      else if (c =? 12)%N then backslash :: js "f" ++ quoteJSON rest
      else if (c =? 10)%N then backslash :: js "n" ++ quoteJSON rest
      else if (c =? 13)%N then backslash :: js "r" ++ quoteJSON rest
      else if (c =? 9)%N then backslash :: js "t" ++ quoteJSON rest
      else if (c <? 32)%N then unicodeEscape c ++ quoteJSON rest
      else if isHighSurrogate c then
        match rest with
        | d :: rest' =>
            if isLowSurrogate d then c :: d :: quoteJSON rest'
            else unicodeEscape c ++ quoteJSON rest
        | [] => unicodeEscape c
        end
      else if isLowSurrogate c then unicodeEscape c ++ quoteJSON rest
      else c :: quoteJSON rest
  end.

(** The decimal digits of an integer, as [Number::toString] prints one below
    1e21 in absolute value. *)
Definition numberToString (n : Z) : jsstring :=
  js (NilZero.string_of_int (Z.to_int n)).

(** [JSON.stringify(payload)] for [{ documentId, expiresAt }] *)
Definition JSON_stringify (payload : ShareTokenPayload) : jsstring :=
  js "{" ++ quoted (js "documentId") ++ js ":"
    ++ quoted (quoteJSON (documentId payload))
    ++ js "," ++ quoted (js "expiresAt") ++ js ":"
    ++ numberToString (expiresAt payload) ++ js "}".

(** [string.split(".")]: the pieces between the separators, at least one. *)
Fixpoint string_split (sep : N) (s : jsstring) : list jsstring :=
  match s with
  | [] => [[]]
  | c :: rest =>
      if (c =? sep)%N then [] :: string_split sep rest
      else
        match string_split sep rest with
        | piece :: pieces => (c :: piece) :: pieces
        | [] => [[c]]
        end
  end.

Definition dot : N := 46.

(** The loop of [timingSafeEqual]: [result |= a.charCodeAt(i) ^ b.charCodeAt(i)] *)
Fixpoint accumulate (result : N) (a b : jsstring) : N :=
  match a, b with
  | x :: a', y :: b' => accumulate (N.lor result (N.lxor x y)) a' b'
  | _, _ => result
  end.

Definition timingSafeEqual (a b : jsstring) : bool :=
  if negb (length a =? length b)%nat then false
  else (accumulate 0 a b =? 0)%N.

Section Auth.

(** [crypto.subtle.sign("HMAC", key, data)] with a SHA-256 key imported
    from the bytes of the secret. *)
Variable hmacSHA256 : list N -> list N -> list Byte.byte.

(** [JSON.parse(data) as ShareTokenPayload]; [None] when it raises. Text
    that parses to something else than a payload is outside this model. *)
Variable JSON_parse : jsstring -> option ShareTokenPayload.

Definition sign (data secret : jsstring) : jsstring :=
  toHex (hmacSHA256 (TextEncoder_encode secret) (TextEncoder_encode data)).

(** [None] when [btoa] raises. *)
Definition createShareToken (payload : ShareTokenPayload) (secret : jsstring)
  : option jsstring :=
  let data := JSON_stringify payload in
  let signature := sign data secret in
  btoa (data ++ js "." ++ signature).

(** [dateNow] is what [Date.now()] returns. Every exception is caught and
    turned into [null]. *)
Definition verifyShareToken (dateNow : Z) (token secret : jsstring)
  : option ShareTokenPayload :=
  match atob token with
  | None => None
  | Some decoded =>
      let pieces := string_split dot decoded in
      let data := pieces !! 0%nat in
      let signature := pieces !! 1%nat in
      if negb (truthy data) || negb (truthy signature) then None
      else
        let data := default [] data in
        let signature := default [] signature in
        let expected := sign data secret in
        if negb (timingSafeEqual signature expected) then None
        else
          match JSON_parse data with
          | None => None
          | Some payload =>
              if (expiresAt payload <? dateNow)%Z then None else Some payload
          end
  end.

End Auth.


(** ** Vocabulary of the statements *)

(** [s.startsWith(prefix)] *)
Fixpoint startsWith (prefix s : jsstring) : bool :=
  match prefix, s with
  | [], _ => true
  | p :: prefix', c :: s' => (p =? c)%N && startsWith prefix' s'
  | _ :: _, [] => false
  end.

(** The keys of the two kinds of index, [documents:public:index] and
    [documents:owner:<token>]. *)
Definition isIndexKey (key : jsstring) : bool := startsWith (js "documents:") key.

(** The keys of the version contents. *)
Definition isVersionKey (key : jsstring) : bool := startsWith VERSION_KEY_PREFIX key.

(** What [getIndex] reads under a key. *)
Definition storedIndex (key : jsstring) (kv : KV) : list jsstring :=
  match entries kv !! key with
  | Some (VIndex ids) => ids
  | _ => []
  end.

Section Vocabulary.

Variable digestSHA256 : list N -> list Byte.byte.

(** The [versionMetadata] object [createDocument] and [updateDocument] build. *)
Definition newVersion (env : Ambient) (content : jsstring) : VersionMetadata :=
  {| versionId := nanoid10 env; v_createdAt := now env;
     v_size := byteLength content; hash := hashContent digestSHA256 content |}.

(** The [stored] object of [createDocument]. *)
Definition createdMetadata (env : Ambient) (title content : jsstring)
    (ownerToken : option jsstring) : StoredDocumentMetadata :=
  {| id := nanoid12 env; title := title; createdAt := now env;
     updatedAt := now env; size := byteLength content;
     versions := [newVersion env content];
     ownerToken := normalizeToken ownerToken;
     rawAccessKey := if truthy (normalizeToken ownerToken)
                     then Some (nanoid16 env) else None |}.

(** [record.metadata] after the assignments of [updateDocument]. *)
Definition updatedMetadata (env : Ambient) (m : StoredDocumentMetadata)
    (content : jsstring) : StoredDocumentMetadata :=
  {| id := id m; title := title m; createdAt := createdAt m;
     updatedAt := now env; size := byteLength content;
     versions := newVersion env content :: versions m;
     ownerToken := ownerToken m;
     rawAccessKey := if truthy (normalizeToken (ownerToken m))
                     then Some (nanoid16 env) else rawAccessKey m |}.

End Vocabulary.

(** ** Drivers and sample data *)

(** One call of [updateDocument]: what it reads from its environment, the
    content and the caller's token. *)
Record UpdateCall := {
  call_env : Ambient;
  call_content : jsstring;
  call_ownerToken : option jsstring;
}.

Section Drivers.

Variable digestSHA256 : list N -> list Byte.byte.
Variable maxSize : Z.

(** The calls of [updateDocument] on one document, one after the other; the
    result lists the version each call returned, the latest first. *)
Fixpoint updateRepeatedly (id : jsstring) (calls : list UpdateCall)
  : Async (list VersionMetadata) :=
  match calls with
  | [] => ret []
  | call :: rest =>
      let* result :=
        updateDocument digestSHA256 maxSize (call_env call) id
          (call_content call) (call_ownerToken call) in
      let* later := updateRepeatedly id rest in
      ret (later ++ [metadata (snd result)])
  end.

End Drivers.

(** An empty namespace on which nothing was written yet. *)
Definition emptyKV : KV := {| entries := ∅; writes := [] |}.

(** A stand-in for SHA-256 on the examples; no statement depends on the digest. *)
Definition digestStub (bytes : list N) : list Byte.byte :=
  [Byte.xe3; Byte.xb0; Byte.xc4; Byte.x42].

Definition env1 : Ambient :=
  {| nanoid12 := js "V1StGXR8_Z5j"; nanoid10 := js "kq3Tn0aPz1";
     nanoid16 := js "Uakgb_J5m9g-0JDM"; now := js "2024-05-01T10:00:00.000Z" |}.

Definition env2 : Ambient :=
  {| nanoid12 := js "mXq0pWc7Kd2L"; nanoid10 := js "b7Hs2LmQx9";
     nanoid16 := js "p0Zr4Yt8Wn3Vb6Cx"; now := js "2024-05-01T11:00:00.000Z" |}.

Definition env3 : Ambient :=
  {| nanoid12 := js "Jf8sK2nD4hG6"; nanoid10 := js "Zc4Vb8Nm1Q";
     nanoid16 := js "Lk9Jh7Gf5Ds3Aq1W"; now := js "2024-05-01T12:00:00.000Z" |}.

(** The namespace after a first [createDocument], by a caller without a token
    and by one with the token [T1]. *)
Definition publicKV : KV :=
  snd (createDocument digestStub 100 env1 (js "a.md") (js "hello") None emptyKV).

Definition privateKV : KV :=
  snd (createDocument digestStub 100 env1 (js "a.md") (js "hello")
         (Some (js "T1")) emptyKV).

Definition isOk {A} (o : Outcome A) : bool :=
  match o with Ok _ => true | Throw _ => false end.

Definition twoUpdates : list UpdateCall :=
  [ {| call_env := env2; call_content := js "hello2"; call_ownerToken := None |};
    {| call_env := env3; call_content := js "hello, again";
       call_ownerToken := Some (js "") |} ].

(** [{ ...view, isOwner }] and [{ ...metadata, ownerToken }] *)
Definition withIsOwner (isOwner : bool) (view : DocumentView) : DocumentView :=
  {| dv_id := dv_id view; dv_title := dv_title view;
     dv_createdAt := dv_createdAt view; dv_updatedAt := dv_updatedAt view;
     dv_size := dv_size view; dv_versions := dv_versions view;
     isOwner := isOwner; isPrivate := isPrivate view;
     dv_rawAccessKey := dv_rawAccessKey view |}.

Definition withOwnerToken (ownerToken : option jsstring) (m : StoredDocumentMetadata)
  : StoredDocumentMetadata :=
  {| id := id m; title := title m; createdAt := createdAt m;
     updatedAt := updatedAt m; size := size m; versions := versions m;
     ownerToken := ownerToken; rawAccessKey := rawAccessKey m |}.

(** *** Pagination in the words of the specification *)

(** The first position of an id in the index. *)
Fixpoint positionOf (x : jsstring) (index : list jsstring) : option nat :=
  match index with
  | [] => None
  | y :: rest => if bool_decide (y = x) then Some 0%nat else S <$> positionOf x rest
  end.

(** Where a page starts: immediately after the position of the cursor, at 0
    when the cursor is absent, empty or not in the index. *)
Definition pageStart (index : list jsstring) (cursor : option jsstring) : nat :=
  match cursor with
  | Some (c :: t) =>
      match positionOf (c :: t) index with
      | Some p => S p
      | None => 0%nat
      end
  | _ => 0%nat
  end.

(** The page: at most [limit] entries from the start. *)
Definition pageOf (index : list jsstring) (limit : nat) (cursor : option jsstring)
  : list jsstring :=
  take limit (drop (pageStart index cursor) index).

(** The next cursor: the last id of the page when entries follow it. *)
Definition cursorAfter (index : list jsstring) (limit : nat) (cursor : option jsstring)
  : option jsstring :=
  let page := pageOf index limit cursor in
  if (pageStart index cursor + length page <? length index)%nat
  then last page else None.

Definition fiveIds : list jsstring := [js "d5"; js "d4"; js "d3"; js "d2"; js "d1"].

(** The request for the latest raw content of a document, with the token and
    the raw key it presents. *)
Definition rawRequest (id : jsstring) (viewerToken rawKey : option jsstring) : Request :=
  {| header_x_user_token := viewerToken; param_id := id;
     query_versionId := None; query_rawKey := rawKey |}.

(** *** Base64 in two steps: the sextets of the bytes, then the padding *)

Fixpoint sextetsOf (bytes : list N) : list N :=
  match bytes with
  | a :: b :: c :: rest =>
      a / 4 :: a mod 4 * 16 + b / 16 :: b mod 16 * 4 + c / 64 :: c mod 64
        :: sextetsOf rest
  | [a; b] => [a / 4; a mod 4 * 16 + b / 16; b mod 16 * 4]
  | [a] => [a / 4; a mod 4 * 16]
  | [] => []
  end%N.

Fixpoint paddingOf (bytes : list N) : jsstring :=
  match bytes with
  | _ :: _ :: _ :: rest => paddingOf rest
  | [_; _] => [pad]
  | [_] => [pad; pad]
  | [] => []
  end.

(** Code units that [btoa] accepts. *)
Definition latin1 (s : jsstring) : Prop := Forall (fun c => (c <= 255)%N) s.

(** The characters [0-9a-f]. *)
Definition isHexDigit (c : N) : bool :=
  ((48 <=? c) && (c <=? 57) || (97 <=? c) && (c <=? 102))%N.

(** Identifiers in which [JSON.stringify] escapes nothing and that hold no
    [.]: printable ASCII without the quote, the backslash and the dot; the
    alphabet of [nanoid] is part of it. *)
Definition isPlainChar (c : N) : bool :=
  ((32 <=? c) && (c <=? 126) && negb (c =? dquote) && negb (c =? backslash)
   && negb (c =? dot))%N.

(** A stand-in for HMAC-SHA256 on the examples: 32 bytes that depend on the
    length of the key and of the data. *)
Definition hmacStub (key data : list N) : list Byte.byte :=
  repeat (default Byte.x00 (Byte.of_N (N.of_nat (length key + length data) mod 256)))
    32.

Definition dottedPayload (expiresAt : Z) : ShareTokenPayload :=
  {| documentId := js "a.b"; expiresAt := expiresAt |}.

Definition samplePayload : ShareTokenPayload :=
  {| documentId := js "V1StGXR8_Z5j"; expiresAt := 1714561200000 |}.

(** A stand-in for [JSON.parse] on the examples: it knows the text of the
    sample payload. *)
Definition parseStub (data : jsstring) : option ShareTokenPayload :=
  if bool_decide (data = JSON_stringify samplePayload) then Some samplePayload
  else None.

(** [kv'] differs from [kv] at most under keys that satisfy [P]. *)
Definition agree_outside (P : jsstring -> bool) (kv kv' : KV) : Prop :=
  forall k, P k = false -> entries kv' !! k = entries kv !! k.

(** Case analysis on the comparisons of code units in the goal. *)
Ltac bool_cases :=
  repeat match goal with
         | |- context [(?a <? ?b)%N] => destruct (N.ltb_spec a b)
         | |- context [(?a <=? ?b)%N] => destruct (N.leb_spec a b)
         | |- context [(?a =? ?b)%N] => destruct (N.eqb_spec a b)
         end.

(** *** The shape of the namespace *)

(** The kind of value the store keeps under a key: a record under a document
    key, an array under an index key, text under a version key. *)
Definition fits (key : jsstring) (value : KVValue) : bool :=
  match value with
  | VRecord _ => startsWith DOCUMENT_KEY_PREFIX key
  | VIndex _ => isIndexKey key
  | VText _ => isVersionKey key
  end.

Definition well_shaped (kv : KV) : Prop :=
  forall key value, entries kv !! key = Some value -> fits key value = true.

Definition keeps_shape {A} (m : Async A) : Prop :=
  forall kv, well_shaped kv -> well_shaped (snd (m kv)).

(** * Properties *)

(** ** Tokens *)

Lemma normalizeToken_cases t :
  normalizeToken t = None \/ exists c s, normalizeToken t = Some (c :: s).
Proof.
  destruct t as [t|]; simpl; [|by left].
  destruct (trim t) as [|c s]; simpl; [by left|right; eauto].
Qed.

Lemma truthy_normalizeToken t :
  truthy (normalizeToken t) = true <-> normalizeToken t <> None.
Proof.
  destruct (normalizeToken_cases t) as [->|(c & s & ->)]; simpl; split; congruence.
Qed.

Lemma strictEq_true a b : strictEq a b = true <-> a = b.
Proof. unfold strictEq. apply bool_decide_eq_true. Qed.

Lemma strictEq_false a b : strictEq a b = false <-> a <> b.
Proof. unfold strictEq. apply bool_decide_eq_false. Qed.

(** The ownership check passes exactly when the two normalised tokens agree. *)
Lemma checkOwner_pass existing caller kv :
  normalizeToken existing = normalizeToken caller ->
  checkOwner (normalizeToken existing) (normalizeToken caller) kv = (Ok tt, kv).
Proof.
  intros ->. unfold checkOwner.
  destruct (truthy (normalizeToken caller)) eqn:E; [|done].
  replace (strictEq _ _) with true; [done|].
  symmetry. by apply strictEq_true.
Qed.

Lemma checkOwner_fail existing caller kv :
  normalizeToken existing <> normalizeToken caller ->
  checkOwner (normalizeToken existing) (normalizeToken caller) kv
  = (Throw (Error FORBIDDEN), kv).
Proof.
  intros Hne. unfold checkOwner.
  destruct (truthy (normalizeToken existing)) eqn:E.
  - apply strictEq_false in Hne. by rewrite Hne.
  - destruct (truthy (normalizeToken caller)) eqn:E'; [done|].
    exfalso. apply Hne.
    destruct (normalizeToken_cases existing) as [->|(c & s & H)];
      [|rewrite H in E; discriminate].
    destruct (normalizeToken_cases caller) as [->|(c & s & H)];
      [done|rewrite H in E'; discriminate].
Qed.

Section Failures.

Variable digestSHA256 : list N -> list Byte.byte.
Variable maxSize : Z.

Lemma assertSize_within content kv :
  (byteLength content <= maxSize)%Z -> assertSize maxSize content kv = (Ok tt, kv).
Proof.
  intros H. unfold assertSize.
  destruct (Z.ltb_spec maxSize (byteLength content)); [lia|done].
Qed.

Lemma assertSize_beyond content kv :
  (maxSize < byteLength content)%Z ->
  assertSize maxSize content kv = (Throw (Error FILE_TOO_LARGE), kv).
Proof.
  intros H. unfold assertSize.
  destruct (Z.ltb_spec maxSize (byteLength content)); [done|lia].
Qed.

Lemma getRecord_stored id m kv :
  entries kv !! documentKey id = Some (VRecord m) ->
  getRecord id kv = (Ok (Some m), kv).
Proof. intros H. unfold getRecord, bind, kv_get. by rewrite H. Qed.

Lemma getRecord_absent id kv :
  entries kv !! documentKey id = None ->
  getRecord id kv = (Ok None, kv).
Proof. intros H. unfold getRecord, bind, kv_get. by rewrite H. Qed.

Lemma updateDocument_too_large env id content token kv :
  (maxSize < byteLength content)%Z ->
  updateDocument digestSHA256 maxSize env id content token kv
  = (Throw (Error FILE_TOO_LARGE), kv).
Proof.
  intros H. unfold updateDocument, bind. by rewrite assertSize_beyond.
Qed.

Lemma createDocument_too_large env title content token kv :
  (maxSize < byteLength content)%Z ->
  createDocument digestSHA256 maxSize env title content token kv
  = (Throw (Error FILE_TOO_LARGE), kv).
Proof.
  intros H. unfold createDocument, bind. by rewrite assertSize_beyond.
Qed.

Lemma updateDocument_not_found env id content token kv :
  (byteLength content <= maxSize)%Z ->
  entries kv !! documentKey id = None ->
  updateDocument digestSHA256 maxSize env id content token kv
  = (Throw (Error NOT_FOUND), kv).
Proof.
  intros Hs Hn. unfold updateDocument, bind.
  by rewrite assertSize_within, getRecord_absent.
Qed.

Lemma updateDocument_forbidden env id content token kv m :
  (byteLength content <= maxSize)%Z ->
  entries kv !! documentKey id = Some (VRecord m) ->
  normalizeToken (ownerToken m) <> normalizeToken token ->
  updateDocument digestSHA256 maxSize env id content token kv
  = (Throw (Error FORBIDDEN), kv).
Proof.
  intros Hs Hm Hne. unfold updateDocument, bind.
  rewrite assertSize_within, (getRecord_stored _ m) by done.
  by rewrite checkOwner_fail.
Qed.

Lemma deleteDocument_forbidden id token kv m :
  entries kv !! documentKey id = Some (VRecord m) ->
  normalizeToken (ownerToken m) <> normalizeToken token ->
  deleteDocument id token kv = (Throw (Error FORBIDDEN), kv).
Proof.
  intros Hm Hne. unfold deleteDocument, bind.
  rewrite (getRecord_stored _ m) by done.
  by rewrite checkOwner_fail.
Qed.

End Failures.

(** ** Keys *)

Lemma documentKey_not_index id : isIndexKey (documentKey id) = false.
Proof. reflexivity. Qed.

Lemma versionKey_not_index id vid : isIndexKey (versionKey id vid) = false.
Proof. reflexivity. Qed.

Lemma public_index_key : isIndexKey PUBLIC_INDEX_KEY = true.
Proof. reflexivity. Qed.

Lemma owner_index_key token : isIndexKey (ownerIndexKey token) = true.
Proof. reflexivity. Qed.

Lemma documentKey_not_version id : isVersionKey (documentKey id) = false.
Proof. reflexivity. Qed.

Lemma versionKey_is_version id vid : isVersionKey (versionKey id vid) = true.
Proof. reflexivity. Qed.

Lemma documentKey_inj id id' : documentKey id = documentKey id' -> id = id'.
Proof. unfold documentKey. apply app_inv_head. Qed.

Lemma key_kinds_differ (P : jsstring -> bool) k k' :
  P k = true -> P k' = false -> k <> k'.
Proof. intros H1 H2 ->. congruence. Qed.

(** ** Index maintenance *)

Lemma getIndex_run key kv : getIndex key kv = (Ok (storedIndex key kv), kv).
Proof.
  unfold getIndex, storedIndex, bind, kv_get.
  destruct (entries kv !! key) as [[]|]; reflexivity.
Qed.

Lemma pushToIndex_run key id kv :
  pushToIndex key id kv
  = (Ok tt, put key (VIndex (id :: without id (storedIndex key kv))) kv).
Proof. unfold pushToIndex, bind. by rewrite getIndex_run. Qed.

Lemma removeFromIndex_run key id kv :
  removeFromIndex key id kv
  = (Ok tt, put key (VIndex (without id (storedIndex key kv))) kv).
Proof. unfold removeFromIndex, bind. by rewrite getIndex_run. Qed.

Lemma agree_outside_refl P kv : agree_outside P kv kv.
Proof. by intros k _. Qed.

Lemma agree_outside_trans P kv1 kv2 kv3 :
  agree_outside P kv1 kv2 -> agree_outside P kv2 kv3 -> agree_outside P kv1 kv3.
Proof. intros H1 H2 k Hk. by rewrite H2, H1. Qed.

Lemma agree_outside_put P key v kv :
  P key = true -> agree_outside P kv (put key v kv).
Proof.
  intros HP k Hk. simpl. apply lookup_insert_ne. intros ->. congruence.
Qed.

Lemma agree_outside_del P key kv :
  P key = true -> agree_outside P kv (del key kv).
Proof.
  intros HP k Hk. simpl. apply lookup_delete_ne. intros ->. congruence.
Qed.

Lemma updatePublicIndex_run documentId isPublic kv :
  exists kv', updatePublicIndex documentId isPublic kv = (Ok tt, kv')
              /\ agree_outside isIndexKey kv kv'.
Proof.
  unfold updatePublicIndex. destruct isPublic.
  - rewrite pushToIndex_run. eexists; split; [done|].
    by apply agree_outside_put.
  - rewrite removeFromIndex_run. eexists; split; [done|].
    by apply agree_outside_put.
Qed.

Lemma touchOwnerIndex_run token documentId kv :
  exists kv', touchOwnerIndex token documentId kv = (Ok tt, kv')
              /\ agree_outside isIndexKey kv kv'.
Proof.
  unfold touchOwnerIndex. destruct token as [[|c t]|].
  - eexists; split; [done|apply agree_outside_refl].
  - rewrite pushToIndex_run. eexists; split; [done|].
    by apply agree_outside_put.
  - eexists; split; [done|apply agree_outside_refl].
Qed.

Lemma for_each_deleteVersion_run id vs kv :
  exists kv', for_each (fun v => deleteVersion id (versionId v)) vs kv = (Ok tt, kv')
              /\ agree_outside isVersionKey kv kv'.
Proof.
  revert kv. induction vs as [|v vs IH]; intros kv; simpl.
  - eexists; split; [done|apply agree_outside_refl].
  - unfold bind, deleteVersion at 1, kv_delete.
    destruct (IH (del (versionKey id (versionId v)) kv)) as (kv' & -> & Hag).
    eexists; split; [done|].
    eapply agree_outside_trans; [|exact Hag].
    by apply agree_outside_del.
Qed.

Section Runs.

Variable digestSHA256 : list N -> list Byte.byte.
Variable maxSize : Z.

(** A successful [createDocument]: what it returns and what it leaves under
    the keys that are not index keys. *)
Lemma createDocument_run env title content token kv :
  (byteLength content <= maxSize)%Z ->
  let stored := createdMetadata digestSHA256 env title content token in
  let version := newVersion digestSHA256 env content in
  exists kv',
    createDocument digestSHA256 maxSize env title content token kv
    = (Ok (toView stored (normalizeToken token),
           {| metadata := version; content := content |}), kv')
    /\ agree_outside isIndexKey
         (put (versionKey (nanoid12 env) (nanoid10 env)) (VText content)
            (put (documentKey (nanoid12 env)) (VRecord stored) kv)) kv'.
Proof.
  intros Hs stored version. subst stored version.
  unfold createdMetadata, newVersion, createDocument, bind.
  rewrite assertSize_within by done.
  unfold putRecord at 1, kv_put at 1. unfold putVersion at 1, kv_put at 1.
  set (kv1 := put (versionKey _ _) _ _).
  destruct (updatePublicIndex_run (nanoid12 env)
              (negb (truthy (normalizeToken token))) kv1) as (kv2 & -> & H2).
  destruct (truthy (normalizeToken token)) eqn:E.
  - destruct (touchOwnerIndex_run (normalizeToken token) (nanoid12 env) kv2)
      as (kv3 & -> & H3).
    eexists; split; [reflexivity|]. by eapply agree_outside_trans.
  - eexists; split; [reflexivity|]. done.
Qed.

(** A successful [updateDocument]. *)
Lemma updateDocument_run env id content token kv m :
  (byteLength content <= maxSize)%Z ->
  entries kv !! documentKey id = Some (VRecord m) ->
  normalizeToken (ownerToken m) = normalizeToken token ->
  let m' := updatedMetadata digestSHA256 env m content in
  let version := newVersion digestSHA256 env content in
  exists kv',
    updateDocument digestSHA256 maxSize env id content token kv
    = (Ok (toView m' (normalizeToken token),
           {| metadata := version; content := content |}), kv')
    /\ agree_outside isIndexKey
         (put (versionKey id (nanoid10 env)) (VText content)
            (put (documentKey id) (VRecord m') kv)) kv'.
Proof.
  intros Hs Hm Hown m' version. subst m' version.
  unfold updatedMetadata, newVersion, updateDocument, bind.
  rewrite assertSize_within, (getRecord_stored _ m) by done.
  rewrite checkOwner_pass by done.
  unfold putRecord at 1, kv_put at 1. unfold putVersion at 1, kv_put at 1.
  set (kv1 := put (versionKey _ _) _ _). simpl.
  destruct (updatePublicIndex_run (Types.id m)
              (negb (truthy (normalizeToken (ownerToken m)))) kv1)
    as (kv2 & -> & H2).
  destruct (truthy (normalizeToken (ownerToken m))) eqn:E.
  - destruct (touchOwnerIndex_run (normalizeToken (ownerToken m)) (Types.id m) kv2)
      as (kv3 & -> & H3).
    eexists; split; [reflexivity|]. by eapply agree_outside_trans.
  - eexists; split; [reflexivity|]. done.
Qed.

End Runs.

Section Inversions.

Variable digestSHA256 : list N -> list Byte.byte.
Variable maxSize : Z.

(** After a run that changed index keys only on top of the two writes of a
    record and of a version content, both can be read back. *)
Lemma written_record_readable id vid content m kv kv' :
  agree_outside isIndexKey
    (put (versionKey id vid) (VText content) (put (documentKey id) (VRecord m) kv)) kv' ->
  entries kv' !! documentKey id = Some (VRecord m)
  /\ entries kv' !! versionKey id vid = Some (VText content).
Proof.
  intros H. split.
  - rewrite H by apply documentKey_not_index. simpl.
    rewrite lookup_insert_ne, lookup_insert_eq; [done|].
    apply (key_kinds_differ isVersionKey); reflexivity.
  - rewrite H by apply versionKey_not_index. simpl.
    by rewrite lookup_insert_eq.
Qed.

(** Other records are left alone. *)
Lemma other_records_kept id id' vid content m kv kv' :
  id' <> id ->
  agree_outside isIndexKey
    (put (versionKey id vid) (VText content) (put (documentKey id) (VRecord m) kv)) kv' ->
  entries kv' !! documentKey id' = entries kv !! documentKey id'.
Proof.
  intros Hne H. rewrite H by apply documentKey_not_index. simpl.
  rewrite lookup_insert_ne, lookup_insert_ne; [done| |].
  - intros E. by apply documentKey_inj in E.
  - apply (key_kinds_differ isVersionKey); reflexivity.
Qed.

Lemma createDocument_inv env title content token kv r kv' :
  createDocument digestSHA256 maxSize env title content token kv = (Ok r, kv') ->
  (byteLength content <= maxSize)%Z
  /\ r = (toView (createdMetadata digestSHA256 env title content token)
            (normalizeToken token),
          {| metadata := newVersion digestSHA256 env content; content := content |})
  /\ entries kv' !! documentKey (nanoid12 env)
     = Some (VRecord (createdMetadata digestSHA256 env title content token))
  /\ entries kv' !! versionKey (nanoid12 env) (nanoid10 env) = Some (VText content).
Proof.
  intros H.
  destruct (Z.le_gt_cases (byteLength content) maxSize) as [Hs|Hs].
  - destruct (createDocument_run digestSHA256 maxSize env title content token kv Hs)
      as (kv1 & Hrun & Hag).
    rewrite Hrun in H. injection H as <- <-.
    split; [done|]. split; [done|].
    by apply written_record_readable in Hag.
  - rewrite createDocument_too_large in H by done. discriminate.
Qed.

Lemma updateDocument_inv env id content token kv r kv' :
  updateDocument digestSHA256 maxSize env id content token kv = (Ok r, kv') ->
  exists m,
    entries kv !! documentKey id = Some (VRecord m)
    /\ (byteLength content <= maxSize)%Z
    /\ normalizeToken (ownerToken m) = normalizeToken token
    /\ r = (toView (updatedMetadata digestSHA256 env m content) (normalizeToken token),
            {| metadata := newVersion digestSHA256 env content; content := content |})
    /\ entries kv' !! documentKey id
       = Some (VRecord (updatedMetadata digestSHA256 env m content))
    /\ entries kv' !! versionKey id (nanoid10 env) = Some (VText content).
Proof.
  intros H.
  destruct (Z.le_gt_cases (byteLength content) maxSize) as [Hs|Hs];
    [|rewrite updateDocument_too_large in H by done; discriminate].
  destruct (entries kv !! documentKey id) as [[m| |]|] eqn:Hm.
  - exists m. split; [done|]. split; [done|].
    destruct (decide (normalizeToken (ownerToken m) = normalizeToken token))
      as [Hown|Hown];
      [|rewrite (updateDocument_forbidden _ _ _ _ _ _ _ m) in H by done; discriminate].
    destruct (updateDocument_run digestSHA256 maxSize env id content token kv m
                Hs Hm Hown) as (kv1 & Hrun & Hag).
    rewrite Hrun in H. injection H as <- <-.
    split; [done|]. split; [done|].
    by apply written_record_readable in Hag.
  - unfold updateDocument, bind in H. rewrite assertSize_within in H by done.
    unfold getRecord, bind, kv_get in H. rewrite Hm in H. discriminate.
  - unfold updateDocument, bind in H. rewrite assertSize_within in H by done.
    unfold getRecord, bind, kv_get in H. rewrite Hm in H. discriminate.
  - rewrite updateDocument_not_found in H by done. discriminate.
Qed.

Lemma updateRepeatedly_versions id calls :
  forall kv m vs kv',
    entries kv !! documentKey id = Some (VRecord m) ->
    updateRepeatedly digestSHA256 maxSize id calls kv = (Ok vs, kv') ->
    exists m',
      entries kv' !! documentKey id = Some (VRecord m')
      /\ versions m' = vs ++ versions m
      /\ length vs = length calls.
Proof.
  induction calls as [|call rest IH]; intros kv m vs kv' Hm H; simpl in H.
  - injection H as <- <-. by exists m.
  - unfold bind in H.
    destruct (updateDocument _ _ _ _ _ _ kv) as [[r|e] kv1] eqn:Hup; [|discriminate].
    destruct (updateRepeatedly _ _ _ _ kv1) as [[later|e] kv2] eqn:Hrest;
      [|discriminate].
    injection H as <- <-.
    apply updateDocument_inv in Hup as (m0 & Hm0 & _ & _ & -> & Hm1 & _).
    rewrite Hm in Hm0. injection Hm0 as <-.
    destruct (IH _ _ _ _ Hm1 Hrest) as (m' & Hm' & Hvs & Hlen).
    exists m'. split; [done|]. split.
    + rewrite Hvs. simpl. by rewrite <- app_assoc.
    + rewrite length_app. simpl. lia.
Qed.

End Inversions.

(** ** Ownership *)

(** C1, as amended. For a stored document whose owner token is non-empty
    after trimming, [deleteDocument], and [updateDocument] with content within
    the size limit, fail FORBIDDEN and write nothing when the caller's token,
    trimmed, differs from the trimmed owner token (an absent or blank caller
    token included); for a stored document whose owner token is absent or
    blank, they fail FORBIDDEN when the caller's token is non-empty after
    trimming. *)
Theorem ownership_is_enforced_on_trimmed_tokens
    (digestSHA256 : list N -> list Byte.byte) (maxSize : Z)
    (kv : KV) (id : jsstring) (m : StoredDocumentMetadata)
    (callerToken : option jsstring) :
  entries kv !! documentKey id = Some (VRecord m) ->
  (forall owner, normalizeToken (ownerToken m) = Some owner ->
                 normalizeToken callerToken <> Some owner ->
     deleteDocument id callerToken kv = (Throw (Error FORBIDDEN), kv)
     /\ forall env content, (byteLength content <= maxSize)%Z ->
          updateDocument digestSHA256 maxSize env id content callerToken kv
          = (Throw (Error FORBIDDEN), kv))
  /\ (normalizeToken (ownerToken m) = None ->
      normalizeToken callerToken <> None ->
     deleteDocument id callerToken kv = (Throw (Error FORBIDDEN), kv)
     /\ forall env content, (byteLength content <= maxSize)%Z ->
          updateDocument digestSHA256 maxSize env id content callerToken kv
          = (Throw (Error FORBIDDEN), kv)).
Proof.
  intros Hm. split.
  - intros owner Ho Hne. split.
    + apply (deleteDocument_forbidden _ _ _ m); [done|]. rewrite Ho. congruence.
    + intros env content Hs.
      apply (updateDocument_forbidden _ _ _ _ _ _ _ m); [done..|].
      rewrite Ho. congruence.
  - intros Ho Hne. split.
    + apply (deleteDocument_forbidden _ _ _ m); [done|]. rewrite Ho. congruence.
    + intros env content Hs.
      apply (updateDocument_forbidden _ _ _ _ _ _ _ m); [done..|].
      rewrite Ho. congruence.
Qed.

Lemma ownership_is_enforced_on_trimmed_tokens_witness :
  (deleteDocument (js "V1StGXR8_Z5j") (Some (js "T2")) privateKV
   = (Throw (Error FORBIDDEN), privateKV)
   /\ updateDocument digestStub 100 env2 (js "V1StGXR8_Z5j") (js "hello2")
        None privateKV
      = (Throw (Error FORBIDDEN), privateKV))
  /\ (deleteDocument (js "V1StGXR8_Z5j") (Some (js "T1")) publicKV
      = (Throw (Error FORBIDDEN), publicKV)
      /\ updateDocument digestStub 100 env2 (js "V1StGXR8_Z5j") (js "hello2")
           (Some (js " T1 ")) publicKV
         = (Throw (Error FORBIDDEN), publicKV)).
Proof.
  split.
  - destruct (ownership_is_enforced_on_trimmed_tokens digestStub 100 privateKV
                (js "V1StGXR8_Z5j")
                (createdMetadata digestStub env1 (js "a.md") (js "hello")
                   (Some (js "T1")))
                (Some (js "T2")) ltac:(vm_compute; reflexivity)) as [H _].
    destruct (H (js "T1") ltac:(vm_compute; reflexivity)
                ltac:(vm_compute; discriminate)) as [Hd _].
    split; [exact Hd|].
    destruct (ownership_is_enforced_on_trimmed_tokens digestStub 100 privateKV
                (js "V1StGXR8_Z5j")
                (createdMetadata digestStub env1 (js "a.md") (js "hello")
                   (Some (js "T1")))
                None ltac:(vm_compute; reflexivity)) as [H' _].
    destruct (H' (js "T1") ltac:(vm_compute; reflexivity)
                ltac:(vm_compute; discriminate)) as [_ Hu].
    apply Hu. vm_compute. discriminate.
  - destruct (ownership_is_enforced_on_trimmed_tokens digestStub 100 publicKV
                (js "V1StGXR8_Z5j")
                (createdMetadata digestStub env1 (js "a.md") (js "hello") None)
                (Some (js "T1")) ltac:(vm_compute; reflexivity)) as [_ H].
    destruct (H ltac:(vm_compute; reflexivity) ltac:(vm_compute; discriminate))
      as [Hd _].
    split; [exact Hd|].
    destruct (ownership_is_enforced_on_trimmed_tokens digestStub 100 publicKV
                (js "V1StGXR8_Z5j")
                (createdMetadata digestStub env1 (js "a.md") (js "hello") None)
                (Some (js " T1 ")) ltac:(vm_compute; reflexivity)) as [_ H'].
    destruct (H' ltac:(vm_compute; reflexivity) ltac:(vm_compute; discriminate))
      as [_ Hu].
    apply Hu. vm_compute. discriminate.
Defined.

(** C1 as stated fails: the document is owned by [T1], the caller's token
    [" T1"] is not equal to it, and both calls succeed. *)
Lemma padded_token_is_accepted :
  entries privateKV !! documentKey (js "V1StGXR8_Z5j")
  = Some (VRecord (createdMetadata digestStub env1 (js "a.md") (js "hello")
                     (Some (js "T1"))))
  /\ ownerToken (createdMetadata digestStub env1 (js "a.md") (js "hello")
                   (Some (js "T1"))) = Some (js "T1")
  /\ Some (js " T1") <> Some (js "T1")
  /\ fst (deleteDocument (js "V1StGXR8_Z5j") (Some (js " T1")) privateKV) = Ok tt
  /\ isOk (fst (updateDocument digestStub 100 env2 (js "V1StGXR8_Z5j") (js "hello2")
                  (Some (js " T1")) privateKV)) = true.
Proof.
  split; [vm_compute; reflexivity|].
  split; [vm_compute; reflexivity|].
  split; [vm_compute; discriminate|].
  split; vm_compute; reflexivity.
Qed.

(** ** Missing documents *)

(** C6, as amended. When no record is stored under the document's key and
    the content is within the size limit, [updateDocument] fails NOT_FOUND and
    writes nothing. *)
Theorem update_of_missing_document_not_found
    (digestSHA256 : list N -> list Byte.byte) (maxSize : Z)
    (env : Ambient) (id content : jsstring) (ownerToken : option jsstring)
    (kv : KV) :
  entries kv !! documentKey id = None ->
  (byteLength content <= maxSize)%Z ->
  updateDocument digestSHA256 maxSize env id content ownerToken kv
  = (Throw (Error NOT_FOUND), kv).
Proof. intros Hn Hs. by apply updateDocument_not_found. Qed.

Lemma update_of_missing_document_not_found_witness :
  updateDocument digestStub 100 env2 (js "mXq0pWc7Kd2L") (js "hello")
    (Some (js "T1")) privateKV
  = (Throw (Error NOT_FOUND), privateKV).
Proof.
  apply update_of_missing_document_not_found.
  - vm_compute. reflexivity.
  - vm_compute. discriminate.
Defined.

(** C6 as stated fails: no record is stored under the id, the content is one
    byte over the limit of 5, and the call fails FILE_TOO_LARGE. *)
Lemma oversized_update_of_missing_document :
  entries emptyKV !! documentKey (js "mXq0pWc7Kd2L") = None
  /\ byteLength (js "hello!") = 6%Z
  /\ updateDocument digestStub 5 env1 (js "mXq0pWc7Kd2L") (js "hello!") None emptyKV
     = (Throw (Error FILE_TOO_LARGE), emptyKV).
Proof. repeat split; vm_compute; reflexivity. Qed.

(** ** The size limit *)

(** C5. Content whose UTF-8 length is exactly the maximum passes
    [createDocument], and passes [updateDocument] of a stored document by a
    caller its ownership check admits; content over the maximum makes both
    fail FILE_TOO_LARGE with the namespace, its entries and the list of writes
    issued, as it was. *)
Theorem size_limit_is_inclusive
    (digestSHA256 : list N -> list Byte.byte) (maxSize : Z)
    (env : Ambient) (content : jsstring) (ownerToken : option jsstring)
    (kv : KV) :
  (byteLength content = maxSize ->
     (forall title, exists r kv',
        createDocument digestSHA256 maxSize env title content ownerToken kv
        = (Ok r, kv'))
     /\ (forall id m,
           entries kv !! documentKey id = Some (VRecord m) ->
           normalizeToken (Types.ownerToken m) = normalizeToken ownerToken ->
           exists r kv',
             updateDocument digestSHA256 maxSize env id content ownerToken kv
             = (Ok r, kv')))
  /\ ((maxSize < byteLength content)%Z ->
     (forall title,
        createDocument digestSHA256 maxSize env title content ownerToken kv
        = (Throw (Error FILE_TOO_LARGE), kv))
     /\ (forall id,
           updateDocument digestSHA256 maxSize env id content ownerToken kv
           = (Throw (Error FILE_TOO_LARGE), kv))).
Proof.
  split.
  - intros Hs. split.
    + intros title.
      destruct (createDocument_run digestSHA256 maxSize env title content
                  ownerToken kv ltac:(lia)) as (kv' & H & _).
      eauto.
    + intros id m Hm Hown.
      destruct (updateDocument_run digestSHA256 maxSize env id content
                  ownerToken kv m ltac:(lia) Hm Hown) as (kv' & H & _).
      eauto.
  - intros Hs. split.
    + intros title. by apply createDocument_too_large.
    + intros id. by apply updateDocument_too_large.
Qed.

Lemma size_limit_is_inclusive_witness :
  (isOk (fst (createDocument digestStub 5 env2 (js "b.md") (js "hello") None publicKV))
   = true
   /\ isOk (fst (updateDocument digestStub 5 env2 (js "V1StGXR8_Z5j") (js "hello")
                   None publicKV)) = true)
  /\ (createDocument digestStub 5 env2 (js "b.md") (js "hello!") None publicKV
      = (Throw (Error FILE_TOO_LARGE), publicKV)
      /\ updateDocument digestStub 5 env2 (js "V1StGXR8_Z5j") (js "hello!") None publicKV
         = (Throw (Error FILE_TOO_LARGE), publicKV)).
Proof.
  split.
  - destruct (size_limit_is_inclusive digestStub 5 env2 (js "hello") None publicKV)
      as [H _].
    destruct (H ltac:(vm_compute; reflexivity)) as [Hc Hu].
    split.
    + destruct (Hc (js "b.md")) as (r & kv' & ->). reflexivity.
    + destruct (Hu (js "V1StGXR8_Z5j")
                  (createdMetadata digestStub env1 (js "a.md") (js "hello") None)
                  ltac:(vm_compute; reflexivity) ltac:(vm_compute; reflexivity))
        as (r & kv' & ->).
      reflexivity.
  - destruct (size_limit_is_inclusive digestStub 5 env2 (js "hello!") None publicKV)
      as [_ H].
    destruct (H ltac:(vm_compute; reflexivity)) as [Hc Hu].
    split; [apply Hc|apply Hu].
Defined.

(** ** Version history *)

(** C4. [createDocument] stores exactly one version; a successful
    [updateDocument] stores the version it returns in front of the stored
    ones, which it keeps as they were; so after the creation and [N]
    successful updates the stored sequence is the [N] returned versions, the
    latest first, followed by the first version: [N + 1] entries. *)
Theorem versions_grow_at_the_front
    (digestSHA256 : list N -> list Byte.byte) (maxSize : Z) :
  (forall env title content ownerToken kv r kv',
     createDocument digestSHA256 maxSize env title content ownerToken kv = (Ok r, kv') ->
     exists m,
       entries kv' !! documentKey (dv_id (fst r)) = Some (VRecord m)
       /\ versions m = [metadata (snd r)]
       /\ dv_versions (fst r) = [metadata (snd r)])
  /\ (forall env id content ownerToken kv m r kv',
        entries kv !! documentKey id = Some (VRecord m) ->
        updateDocument digestSHA256 maxSize env id content ownerToken kv = (Ok r, kv') ->
        exists m',
          entries kv' !! documentKey id = Some (VRecord m')
          /\ versions m' = metadata (snd r) :: versions m
          /\ dv_versions (fst r) = versions m')
  /\ (forall env title content ownerToken kv r kv1 calls returned kv2,
        createDocument digestSHA256 maxSize env title content ownerToken kv = (Ok r, kv1) ->
        updateRepeatedly digestSHA256 maxSize (dv_id (fst r)) calls kv1
        = (Ok returned, kv2) ->
        exists m,
          entries kv2 !! documentKey (dv_id (fst r)) = Some (VRecord m)
          /\ versions m = returned ++ [metadata (snd r)]
          /\ length (versions m) = S (length calls)
          /\ head (versions m) = head (returned ++ [metadata (snd r)])).
Proof.
  split; [|split].
  - intros env title content ownerToken kv r kv' H.
    apply createDocument_inv in H as (_ & -> & Hm & _).
    eexists. split; [exact Hm|]. done.
  - intros env id content ownerToken kv m r kv' Hm H.
    apply updateDocument_inv in H as (m0 & Hm0 & _ & _ & -> & Hm' & _).
    rewrite Hm in Hm0. injection Hm0 as <-.
    eexists. split; [exact Hm'|]. done.
  - intros env title content ownerToken kv r kv1 calls returned kv2 Hc Hu.
    apply createDocument_inv in Hc as (_ & -> & Hm & _).
    simpl in Hu |- *.
    destruct (updateRepeatedly_versions _ _ _ _ _ _ _ _ Hm Hu)
      as (m' & Hm' & Hvs & Hlen).
    exists m'. simpl in Hvs. split; [done|]. split; [done|]. split.
    + rewrite Hvs, length_app. simpl. lia.
    + by rewrite Hvs.
Qed.

Lemma versions_grow_at_the_front_witness :
  exists m,
    entries (snd (updateRepeatedly digestStub 100 (js "V1StGXR8_Z5j") twoUpdates
                    publicKV)) !! documentKey (js "V1StGXR8_Z5j")
    = Some (VRecord m)
    /\ versions m
       = [newVersion digestStub env3 (js "hello, again");
          newVersion digestStub env2 (js "hello2")]
         ++ [newVersion digestStub env1 (js "hello")]
    /\ length (versions m) = 3%nat
    /\ head (versions m) = Some (newVersion digestStub env3 (js "hello, again")).
Proof.
  destruct (versions_grow_at_the_front digestStub 100) as (_ & _ & H).
  exact (H env1 (js "a.md") (js "hello") None emptyKV
           (toView (createdMetadata digestStub env1 (js "a.md") (js "hello") None) None,
            {| metadata := newVersion digestStub env1 (js "hello");
               content := js "hello" |})
           publicKV twoUpdates
           [newVersion digestStub env3 (js "hello, again");
            newVersion digestStub env2 (js "hello2")]
           (snd (updateRepeatedly digestStub 100 (js "V1StGXR8_Z5j") twoUpdates publicKV))
           ltac:(vm_compute; reflexivity) ltac:(vm_compute; reflexivity)).
Defined.

(** ** Views *)

Lemma truthy_true_iff (s : option jsstring) :
  truthy s = true <-> exists c t, s = Some (c :: t).
Proof.
  destruct s as [[|c t]|]; simpl; split; try congruence; eauto.
  - intros (c & t & [=]).
  - intros (c & t & [=]).
Qed.

Lemma toView_isOwner m viewerToken :
  isOwner (toView m viewerToken) = true
  <-> truthy (ownerToken m) = true /\ viewerToken = ownerToken m.
Proof.
  unfold toView; simpl. destruct (truthy (ownerToken m)).
  - rewrite strictEq_true. tauto.
  - split; [discriminate|]. intros [? _]. discriminate.
Qed.

Lemma toView_isPrivate m viewerToken :
  isPrivate (toView m viewerToken) = truthy (ownerToken m).
Proof. reflexivity. Qed.

Lemma toView_blind m viewerToken ownerToken' viewerToken' :
  truthy ownerToken' = truthy (ownerToken m) ->
  (truthy (ownerToken m) = true ->
   (viewerToken = ownerToken m <-> viewerToken' = ownerToken')) ->
  toView (withOwnerToken ownerToken' m) viewerToken' = toView m viewerToken.
Proof.
  intros Ht Hv. unfold toView; simpl. rewrite Ht.
  destruct (truthy (ownerToken m)); [|done].
  replace (strictEq viewerToken' ownerToken') with (strictEq viewerToken (ownerToken m));
    [done|].
  destruct (strictEq viewerToken (ownerToken m)) eqn:E.
  - symmetry. apply strictEq_true, Hv; [done|]. by apply strictEq_true.
  - symmetry. apply strictEq_false. apply strictEq_false in E.
    intros E'. apply E, Hv; done.
Qed.

Lemma getDocument_stored id viewerToken kv m :
  entries kv !! documentKey id = Some (VRecord m) ->
  getDocument id viewerToken kv = (Ok (Some (toView m viewerToken)), kv).
Proof. intros H. unfold getDocument, bind. by rewrite (getRecord_stored _ m). Qed.

Lemma getRecord_inv id kv r kv' :
  getRecord id kv = (Ok r, kv') ->
  kv' = kv /\ match r with
              | Some m => entries kv !! documentKey id = Some (VRecord m)
              | None => entries kv !! documentKey id = None
              end.
Proof.
  unfold getRecord, bind, kv_get.
  destruct (entries kv !! documentKey id) as [[m| |]|]; intros [= <- <-]; done.
Qed.

Lemma getDocument_inv id viewerToken kv view kv' :
  getDocument id viewerToken kv = (Ok (Some view), kv') ->
  kv' = kv /\ exists m, entries kv !! documentKey id = Some (VRecord m)
                        /\ view = toView m viewerToken.
Proof.
  unfold getDocument, bind. intros H.
  destruct (getRecord id kv) as [[r|e] kv1] eqn:Hr; [|discriminate].
  apply getRecord_inv in Hr as [-> Hr].
  destruct r as [m|]; [|discriminate].
  injection H as <- <-. eauto.
Qed.

Lemma loadViews_inv ids viewerToken :
  forall kv views kv',
    loadViews ids viewerToken kv = (Ok views, kv') ->
    kv' = kv
    /\ forall view, In view views ->
         exists id m, In id ids
                      /\ entries kv !! documentKey id = Some (VRecord m)
                      /\ view = toView m viewerToken.
Proof.
  induction ids as [|id rest IH]; intros kv views kv' H; simpl in H.
  - injection H as <- <-. split; [done|]. intros view [].
  - unfold bind in H.
    destruct (getRecord id kv) as [[r|e] kv1] eqn:Hr; [|discriminate].
    apply getRecord_inv in Hr as [-> Hr].
    assert (Hskip : forall views kv',
               loadViews rest viewerToken kv = (Ok views, kv') ->
               kv' = kv /\ forall view, In view views ->
                 exists id0 m, In id0 (id :: rest)
                   /\ entries kv !! documentKey id0 = Some (VRecord m)
                   /\ view = toView m viewerToken).
    { intros vs k Hl. apply IH in Hl as [-> Hl]. split; [done|].
      intros view Hin. destruct (Hl view Hin) as (id0 & m & ? & ? & ?).
      exists id0, m. simpl. auto. }
    destruct r as [m|]; [|by apply Hskip].
    destruct (truthy (ownerToken m) && negb (strictEq (ownerToken m) viewerToken));
      [by apply Hskip|].
    unfold bind in H.
    destruct (loadViews rest viewerToken kv) as [[result|e] kv2] eqn:Hl; [|discriminate].
    injection H as <- <-.
    destruct (Hskip _ _ eq_refl) as [-> Hres]. split; [done|].
    intros view [<-|Hin]; [|by apply Hres].
    exists id, m. simpl. auto.
Qed.

Section ListRuns.

Variable digestSHA256 : list N -> list Byte.byte.
Variable maxSize : Z.

Lemma listPublicDocuments_inv viewerToken limit cursor kv response kv' :
  listPublicDocuments viewerToken limit cursor kv = (Ok response, kv') ->
  forall view, In view (documents response) ->
    exists id m, entries kv !! documentKey id = Some (VRecord m)
                 /\ view = toView m viewerToken.
Proof.
  unfold listPublicDocuments, bind. rewrite getIndex_run.
  destruct (sliceIndex _ limit cursor) as [slice nextCursor].
  destruct (loadViews slice viewerToken kv) as [[views|e] kv1] eqn:Hl; [|discriminate].
  intros [= <- <-] view Hin. simpl in Hin.
  apply loadViews_inv in Hl as [_ Hl].
  destruct (Hl view Hin) as (id & m & _ & ? & ?). eauto.
Qed.

Lemma listOwnerDocuments_inv ownerToken limit cursor kv response kv' :
  listOwnerDocuments ownerToken limit cursor kv = (Ok response, kv') ->
  forall view, In view (documents response) ->
    exists id m, entries kv !! documentKey id = Some (VRecord m)
                 /\ view = toView m ownerToken.
Proof.
  unfold listOwnerDocuments.
  destruct ownerToken as [[|c t]|]; try (intros [= <- <-] view []).
  unfold bind. rewrite getIndex_run.
  destruct (sliceIndex _ limit cursor) as [slice nextCursor].
  destruct (loadViews slice _ kv) as [[views|e] kv1] eqn:Hl; [|discriminate].
  intros [= <- <-] view Hin. simpl in Hin.
  apply loadViews_inv in Hl as [_ Hl].
  destruct (Hl view Hin) as (id & m & _ & ? & ?). eauto.
Qed.

End ListRuns.

(** C2. A view is built by [toView] alone. Its [isOwner] is true exactly when
    the document has an owner token and the viewer's token is that token; its
    [isPrivate] is true exactly when the document has an owner token; and it
    carries nothing else of the owner token: replacing the stored token by
    another one (and the viewer's token along with it) so that the two flags
    stay the same gives the same view. [getDocument] and the two list
    methods build the view of a stored record for the viewer's token,
    [createDocument] and [updateDocument] the view of the record they store
    for the caller's trimmed token. *)
Theorem views_hide_the_owner_token
    (digestSHA256 : list N -> list Byte.byte) (maxSize : Z) :
  (forall m viewerToken,
     (isOwner (toView m viewerToken) = true
      <-> truthy (ownerToken m) = true /\ viewerToken = ownerToken m)
     /\ (isPrivate (toView m viewerToken) = true <-> truthy (ownerToken m) = true))
  /\ (forall m viewerToken ownerToken' viewerToken',
        truthy ownerToken' = truthy (ownerToken m) ->
        (truthy (ownerToken m) = true ->
         (viewerToken = ownerToken m <-> viewerToken' = ownerToken')) ->
        toView (withOwnerToken ownerToken' m) viewerToken' = toView m viewerToken)
  /\ (forall id viewerToken kv view kv',
        getDocument id viewerToken kv = (Ok (Some view), kv') ->
        exists m, entries kv !! documentKey id = Some (VRecord m)
                  /\ view = toView m viewerToken)
  /\ (forall env title content ownerToken kv r kv',
        createDocument digestSHA256 maxSize env title content ownerToken kv
        = (Ok r, kv') ->
        exists m, entries kv' !! documentKey (dv_id (fst r)) = Some (VRecord m)
                  /\ fst r = toView m (normalizeToken ownerToken))
  /\ (forall env id content ownerToken kv r kv',
        updateDocument digestSHA256 maxSize env id content ownerToken kv
        = (Ok r, kv') ->
        exists m, entries kv' !! documentKey id = Some (VRecord m)
                  /\ fst r = toView m (normalizeToken ownerToken))
  /\ (forall viewerToken limit cursor kv response kv',
        listPublicDocuments viewerToken limit cursor kv = (Ok response, kv') ->
        forall view, In view (documents response) ->
          exists id m, entries kv !! documentKey id = Some (VRecord m)
                       /\ view = toView m viewerToken)
  /\ (forall ownerToken limit cursor kv response kv',
        listOwnerDocuments ownerToken limit cursor kv = (Ok response, kv') ->
        forall view, In view (documents response) ->
          exists id m, entries kv !! documentKey id = Some (VRecord m)
                       /\ view = toView m ownerToken).
Proof.
  repeat apply conj.
  - intros m viewerToken. split; [apply toView_isOwner|].
    by rewrite toView_isPrivate.
  - apply toView_blind.
  - intros id viewerToken kv view kv' H.
    by apply getDocument_inv in H as [_ H].
  - intros env title content ownerToken kv r kv' H.
    apply createDocument_inv in H as (_ & -> & Hm & _). eauto.
  - intros env id content ownerToken kv r kv' H.
    apply updateDocument_inv in H as (m & _ & _ & _ & -> & Hm & _). eauto.
  - apply listPublicDocuments_inv.
  - apply listOwnerDocuments_inv.
Qed.

Lemma views_hide_the_owner_token_witness :
  toView (withOwnerToken (Some (js "T2"))
            (createdMetadata digestStub env1 (js "a.md") (js "hello") (Some (js "T1"))))
    (Some (js "T2"))
  = toView (createdMetadata digestStub env1 (js "a.md") (js "hello") (Some (js "T1")))
      (Some (js "T1"))
  /\ (exists m, entries privateKV !! documentKey (js "V1StGXR8_Z5j") = Some (VRecord m)
                /\ toView (createdMetadata digestStub env1 (js "a.md") (js "hello")
                             (Some (js "T1"))) (Some (js "T9"))
                   = toView m (Some (js "T9")))
  /\ (exists m, entries privateKV !! documentKey (js "V1StGXR8_Z5j") = Some (VRecord m)
                /\ toView (createdMetadata digestStub env1 (js "a.md") (js "hello")
                             (Some (js "T1"))) (Some (js "T1"))
                   = toView m (normalizeToken (Some (js " T1 ")))).
Proof.
  destruct (views_hide_the_owner_token digestStub 100) as (_ & Hb & Hg & Hc & _).
  split; [|split].
  - apply Hb.
    + vm_compute. reflexivity.
    + intros _. vm_compute. split; intros _; reflexivity.
  - apply (Hg (js "V1StGXR8_Z5j") (Some (js "T9")) privateKV _ privateKV).
    vm_compute. reflexivity.
  - apply (Hc env1 (js "a.md") (js "hello") (Some (js " T1 ")) emptyKV
             (toView (createdMetadata digestStub env1 (js "a.md") (js "hello")
                        (Some (js "T1"))) (Some (js "T1")),
              {| metadata := newVersion digestStub env1 (js "hello");
                 content := js "hello" |})
             privateKV).
    vm_compute. reflexivity.
Defined.

(** C9. For a stored document, [getDocument] returns a view to every viewer,
    and the views of two viewers are equal once [isOwner] is set aside; when
    the document has an owner token, both carry the stored raw-access key. *)
Theorem views_of_two_viewers_differ_in_isOwner_only
    (kv : KV) (id : jsstring) (m : StoredDocumentMetadata)
    (viewerToken1 viewerToken2 : option jsstring) :
  entries kv !! documentKey id = Some (VRecord m) ->
  exists view1 view2,
    getDocument id viewerToken1 kv = (Ok (Some view1), kv)
    /\ getDocument id viewerToken2 kv = (Ok (Some view2), kv)
    /\ withIsOwner false view1 = withIsOwner false view2
    /\ (truthy (ownerToken m) = true ->
        dv_rawAccessKey view1 = rawAccessKey m
        /\ dv_rawAccessKey view2 = rawAccessKey m).
Proof.
  intros Hm. exists (toView m viewerToken1), (toView m viewerToken2).
  rewrite !(getDocument_stored _ _ _ m) by done.
  repeat split; unfold toView; simpl; by rewrite H.
Qed.

Lemma views_of_two_viewers_differ_in_isOwner_only_witness :
  exists view1 view2,
    getDocument (js "V1StGXR8_Z5j") (Some (js "T1")) privateKV
    = (Ok (Some view1), privateKV)
    /\ getDocument (js "V1StGXR8_Z5j") None privateKV = (Ok (Some view2), privateKV)
    /\ withIsOwner false view1 = withIsOwner false view2
    /\ (truthy (Some (js "T1")) = true ->
        dv_rawAccessKey view1 = Some (js "Uakgb_J5m9g-0JDM")
        /\ dv_rawAccessKey view2 = Some (js "Uakgb_J5m9g-0JDM")).
Proof.
  exact (views_of_two_viewers_differ_in_isOwner_only privateKV (js "V1StGXR8_Z5j")
           (createdMetadata digestStub env1 (js "a.md") (js "hello") (Some (js "T1")))
           (Some (js "T1")) None ltac:(vm_compute; reflexivity)).
Defined.

(** ** Pagination *)

Lemma positionOf_lt x index p :
  positionOf x index = Some p -> (p < length index)%nat.
Proof.
  revert p. induction index as [|y rest IH]; intros p; simpl; [discriminate|].
  case_bool_decide.
  - intros [= <-]. lia.
  - destruct (positionOf x rest) as [q|]; simpl; [|discriminate].
    intros [= <-]. specialize (IH q eq_refl). lia.
Qed.

Lemma indexOf_positionOf index x :
  indexOf index x = match positionOf x index with
                    | Some p => Z.of_nat p
                    | None => (-1)%Z
                    end.
Proof.
  induction index as [|y rest IH]; simpl; [done|].
  case_bool_decide; [done|]. rewrite IH.
  destruct (positionOf x rest) as [q|]; simpl.
  - destruct (Z.ltb_spec (Z.of_nat q) 0); lia.
  - done.
Qed.

Lemma positionOf_first x before after :
  x ∉ before -> positionOf x (before ++ x :: after) = Some (length before).
Proof.
  induction before as [|y before IH]; intros Hn; simpl.
  - by rewrite bool_decide_eq_true_2.
  - apply not_elem_of_cons in Hn as [Hne Hn].
    rewrite bool_decide_eq_false_2 by congruence.
    by rewrite IH.
Qed.

Lemma positionOf_absent x index : x ∉ index -> positionOf x index = None.
Proof.
  induction index as [|y rest IH]; intros Hn; simpl; [done|].
  apply not_elem_of_cons in Hn as [Hne Hn].
  rewrite bool_decide_eq_false_2 by congruence.
  by rewrite IH.
Qed.

Lemma pageStart_le index cursor :
  (pageStart index cursor <= length index)%nat.
Proof.
  unfold pageStart. destruct cursor as [[|c t]|]; try lia.
  destruct (positionOf (c :: t) index) as [p|] eqn:E; [|lia].
  apply positionOf_lt in E. lia.
Qed.

Lemma sliceIndex_start index (cursor : option jsstring) :
  match cursor with
  | Some (c :: t) => Z.max (indexOf index (c :: t) + 1) 0
  | _ => 0%Z
  end = Z.of_nat (pageStart index cursor).
Proof.
  unfold pageStart. destruct cursor as [[|c t]|]; try done.
  rewrite indexOf_positionOf.
  destruct (positionOf (c :: t) index); lia.
Qed.

Lemma slice_from {A} (l : list A) (start : nat) (limit : Z) :
  (start <= length l)%nat -> (0 <= limit)%Z ->
  slice l (Z.of_nat start) (Z.of_nat start + limit)
  = take (Z.to_nat limit) (drop start l).
Proof.
  intros Hs Hl. unfold slice, relativeIndex.
  destruct (Z.ltb_spec (Z.of_nat start) 0); [lia|].
  destruct (Z.ltb_spec (Z.of_nat start + limit) 0); [lia|].
  rewrite (Z.min_l (Z.of_nat start)) by lia. rewrite Nat2Z.id.
  destruct (Z.le_gt_cases (Z.of_nat start + limit) (Z.of_nat (length l))).
  - rewrite Z.min_l by lia. f_equal. lia.
  - rewrite Z.min_r by lia.
    rewrite !take_ge; [done| |]; rewrite length_drop; lia.
Qed.

Lemma last_take_drop {A} (l : list A) (start n : nat) :
  (1 <= n)%nat -> (start + n <= length l)%nat ->
  last (take n (drop start l)) = l !! (start + n - 1)%nat.
Proof.
  intros Hn Hl. rewrite last_lookup.
  rewrite length_take, length_drop.
  replace (Init.Nat.pred (n `min` (length l - start))) with (n - 1)%nat by lia.
  rewrite lookup_take_lt by lia. rewrite lookup_drop. f_equal. lia.
Qed.

Lemma sliceIndex_pages index limit cursor :
  (1 <= limit)%Z ->
  sliceIndex index limit cursor
  = (pageOf index (Z.to_nat limit) cursor, cursorAfter index (Z.to_nat limit) cursor).
Proof.
  intros Hl. unfold sliceIndex, pageOf, cursorAfter.
  rewrite sliceIndex_start.
  pose proof (pageStart_le index cursor) as Hle.
  set (start := pageStart index cursor) in *.
  rewrite slice_from by lia. f_equal.
  unfold pageOf. fold start. rewrite length_take, length_drop.
  destruct (Z.ltb_spec (Z.of_nat start + limit) (Z.of_nat (length index))).
  - rewrite (proj2 (Nat.ltb_lt _ _)) by lia.
    rewrite last_take_drop by lia.
    unfold at_index. destruct (Z.ltb_spec (Z.of_nat start + limit - 1) 0); [lia|].
    f_equal. lia.
  - by rewrite (proj2 (Nat.ltb_ge _ _)) by lia.
Qed.

(** C7, as amended. For every index, every cursor and every integer limit of
    at least 1, the page is made of the (at most) [limit] entries that start
    immediately after the first position of the cursor, or at position 0 when
    the cursor is absent, empty or not in the index, and the next cursor is
    the last id of that page when entries follow it and absent otherwise; on
    the index [d5, d4, d3, d2, d1] with limit 2 the three pages are [d5, d4]
    with cursor [d4], [d3, d2] with cursor [d2] and [d1] with no cursor. *)
Theorem pages_start_after_the_cursor :
  (forall index limit cursor,
     (1 <= limit)%Z ->
     sliceIndex index limit cursor
     = (pageOf index (Z.to_nat limit) cursor,
        cursorAfter index (Z.to_nat limit) cursor))
  /\ (forall before c t after,
        c :: t ∉ before ->
        pageStart (before ++ (c :: t) :: after) (Some (c :: t)) = S (length before))
  /\ (forall index cursor,
        (cursor = None \/ cursor = Some [] \/ exists x, cursor = Some x /\ x ∉ index) ->
        pageStart index cursor = 0%nat)
  /\ sliceIndex fiveIds 2 None = ([js "d5"; js "d4"], Some (js "d4"))
  /\ sliceIndex fiveIds 2 (Some (js "d4")) = ([js "d3"; js "d2"], Some (js "d2"))
  /\ sliceIndex fiveIds 2 (Some (js "d2")) = ([js "d1"], None).
Proof.
  split; [exact sliceIndex_pages|].
  split.
  { intros before c t after Hn. unfold pageStart. by rewrite positionOf_first. }
  split.
  { intros index cursor [->|[->|(x & -> & Hn)]]; try done.
    unfold pageStart. destruct x; [done|]. by rewrite positionOf_absent. }
  repeat split.
Qed.

Lemma pages_start_after_the_cursor_witness :
  sliceIndex fiveIds 3 (Some (js "d5"))
  = ([js "d4"; js "d3"; js "d2"], Some (js "d2"))
  /\ pageStart ([js "d5"; js "d4"] ++ js "d3" :: [js "d2"; js "d1"]) (Some (js "d3"))
     = 3%nat
  /\ pageStart fiveIds (Some (js "d9")) = 0%nat.
Proof.
  destruct pages_start_after_the_cursor as (Hp & Ha & Hz & _).
  split; [|split].
  - rewrite (Hp fiveIds 3%Z (Some (js "d5")) ltac:(lia)). vm_compute. reflexivity.
  - apply (Ha [js "d5"; js "d4"] 100%N [51%N] [js "d2"; js "d1"]).
    apply (bool_decide_unpack _). vm_compute. exact I.
  - apply Hz. right. right. exists (js "d9"). split; [reflexivity|].
    apply (bool_decide_unpack _). vm_compute. exact I.
Defined.

(** C7 as stated fails for the limit 0: with the cursor [a] the page of
    [a, b, c] is empty, entries follow, and the cursor returned is [a], which
    is not on the page. *)
Lemma empty_page_returns_the_old_cursor :
  sliceIndex [js "a"; js "b"; js "c"] 0 (Some (js "a")) = ([], Some (js "a"))
  /\ last (fst (sliceIndex [js "a"; js "b"; js "c"] 0 (Some (js "a")))) = None.
Proof. split; vm_compute; reflexivity. Qed.

(** ** Deleting *)

(** A successful [deleteDocument] removes the record. *)
Lemma deleteDocument_run id token kv m :
  entries kv !! documentKey id = Some (VRecord m) ->
  normalizeToken (ownerToken m) = normalizeToken token ->
  exists kv', deleteDocument id token kv = (Ok tt, kv')
              /\ entries kv' !! documentKey id = None.
Proof.
  intros Hm Hown. unfold deleteDocument, bind.
  rewrite (getRecord_stored _ m) by done. rewrite checkOwner_pass by done.
  unfold deleteRecord at 1, kv_delete at 1.
  destruct (updatePublicIndex_run id false (del (documentKey id) kv))
    as (kv1 & -> & H1).
  assert (exists kv2,
             match normalizeToken (ownerToken m) with
             | Some (c :: t) => removeFromIndex (ownerIndexKey (c :: t)) id
             | _ => ret tt
             end kv1 = (Ok tt, kv2) /\ agree_outside isIndexKey kv1 kv2)
    as (kv2 & -> & H2).
  { destruct (normalizeToken (ownerToken m)) as [[|c t]|].
    - eexists; split; [done|apply agree_outside_refl].
    - rewrite removeFromIndex_run. eexists; split; [done|].
      by apply agree_outside_put.
    - eexists; split; [done|apply agree_outside_refl]. }
  destruct (for_each_deleteVersion_run id (versions m) kv2) as (kv3 & -> & H3).
  eexists; split; [done|].
  rewrite H3 by apply documentKey_not_version.
  rewrite H2, H1 by apply documentKey_not_index.
  simpl. apply lookup_delete_eq.
Qed.

Lemma blank_token_normalizes_to_none header :
  trim header = [] -> normalizeToken (Some header) = None.
Proof. intros H. simpl. by rewrite H. Qed.

(** The route refuses a request without the header, or with an empty one,
    before it calls the store. *)
Lemma route_delete_requires_header request kv :
  truthy (header_x_user_token request) = false ->
  route_delete request kv = (Throw (forbidden "owner token required"), kv).
Proof. intros H. unfold route_delete, getHeaderToken. by rewrite H. Qed.

(** A header that holds a token is refused by the store for a document
    without an owner. *)
Lemma route_delete_public_with_token request kv m :
  entries kv !! documentKey (param_id request) = Some (VRecord m) ->
  normalizeToken (ownerToken m) = None ->
  normalizeToken (header_x_user_token request) <> None ->
  route_delete request kv = (Throw (forbidden "owner token required"), kv).
Proof.
  intros Hm Ho Hh. unfold route_delete, getHeaderToken.
  destruct (truthy (header_x_user_token request)); [|done]. simpl.
  unfold try_catch.
  rewrite (deleteDocument_forbidden _ _ _ m); [done..|]. rewrite Ho. congruence.
Qed.

(** Called without a token, the store deletes a document without an owner. *)
Lemma deleteDocument_public_without_token id kv m :
  entries kv !! documentKey id = Some (VRecord m) ->
  normalizeToken (ownerToken m) = None ->
  exists kv', deleteDocument id None kv = (Ok tt, kv')
              /\ entries kv' !! documentKey id = None.
Proof. intros Hm Ho. by apply (deleteDocument_run _ _ _ m). Qed.

(** C10, where the code departs from it. A request whose [x-user-token]
    header is not empty but holds white space only passes the check of the
    route, is taken by the store for a call without a token, and deletes a
    document that has no owner. *)
Theorem blank_header_deletes_public_document
    (kv : KV) (id header : jsstring) (m : StoredDocumentMetadata)
    (versionId rawKey : option jsstring) :
  entries kv !! documentKey id = Some (VRecord m) ->
  normalizeToken (ownerToken m) = None ->
  header <> [] ->
  trim header = [] ->
  exists kv',
    route_delete {| header_x_user_token := Some header; param_id := id;
                    query_versionId := versionId; query_rawKey := rawKey |} kv
    = (Ok tt, kv')
    /\ entries kv' !! documentKey id = None.
Proof.
  intros Hm Ho Hne Hblank. unfold route_delete, getHeaderToken. simpl.
  destruct header as [|c t]; [done|]. simpl. unfold try_catch.
  destruct (deleteDocument_run id (Some (c :: t)) kv m Hm) as (kv' & -> & Hgone).
  { rewrite Ho. symmetry. by apply blank_token_normalizes_to_none. }
  eauto.
Qed.

Lemma blank_header_deletes_public_document_witness :
  exists kv',
    route_delete {| header_x_user_token := Some [160%N];
                    param_id := js "V1StGXR8_Z5j";
                    query_versionId := None; query_rawKey := None |} publicKV
    = (Ok tt, kv')
    /\ entries kv' !! documentKey (js "V1StGXR8_Z5j") = None.
Proof.
  apply (blank_header_deletes_public_document publicKV (js "V1StGXR8_Z5j") [160%N]
           (createdMetadata digestStub env1 (js "a.md") (js "hello") None)).
  - vm_compute. reflexivity.
  - vm_compute. reflexivity.
  - discriminate.
  - vm_compute. reflexivity.
Defined.

(** ** Raw content and the raw-access key *)

Lemma truthy_of_normalized t :
  truthy (normalizeToken t) = true -> truthy t = true.
Proof.
  destruct t as [[|c s]|]; simpl; try done.
Qed.

Lemma getVersion_empty id vid kv :
  entries kv !! versionKey id vid = Some (VText []) ->
  getVersion id vid kv = (Ok None, kv).
Proof. intros H. unfold getVersion, bind, kv_get. by rewrite H. Qed.

Lemma getVersion_latest id vid content m v kv :
  content <> [] ->
  versionId v = vid ->
  entries kv !! versionKey id vid = Some (VText content) ->
  entries kv !! documentKey id = Some (VRecord m) ->
  head (versions m) = Some v ->
  getVersion id vid kv
  = (Ok (Some {| metadata := v; content := content |}), kv).
Proof.
  intros Hne <- Hc Hm Hv. unfold getVersion, bind at 1, kv_get. rewrite Hc.
  destruct content as [|c t]; [done|].
  unfold bind. rewrite (getRecord_stored _ m) by done.
  destruct (versions m) as [|v0 vs]; [discriminate|]. injection Hv as ->.
  unfold find_version. simpl. by rewrite bool_decide_eq_true_2.
Qed.

Section RawKey.

Variable digestSHA256 : list N -> list Byte.byte.
Variable maxSize : Z.

(** After an update of an owned document: the key is the one drawn during the
    update, a request with another key and without the owner's token is
    refused, and a request with the new key is served the content, provided
    the content is not empty. *)
Lemma rotated_key_serves_nonempty_content env id content ownerToken kv m :
  entries kv !! documentKey id = Some (VRecord m) ->
  truthy (normalizeToken (Types.ownerToken m)) = true ->
  normalizeToken (Types.ownerToken m) = normalizeToken ownerToken ->
  (byteLength content <= maxSize)%Z ->
  nanoid16 env <> [] ->
  exists r kv',
    updateDocument digestSHA256 maxSize env id content ownerToken kv = (Ok r, kv')
    /\ dv_rawAccessKey (fst r) = Some (nanoid16 env)
    /\ (exists m', entries kv' !! documentKey id = Some (VRecord m')
                   /\ rawAccessKey m' = Some (nanoid16 env))
    /\ (forall viewerToken oldKey,
          viewerToken <> Types.ownerToken m ->
          oldKey <> Some (nanoid16 env) ->
          route_raw (rawRequest id viewerToken oldKey) kv'
          = (Throw (forbidden "owner token required"), kv'))
    /\ (content <> [] ->
        route_raw (rawRequest id None (Some (nanoid16 env))) kv'
        = (Ok {| body := content; filename := title m ++ js ".txt" |}, kv'))
    /\ (content = [] ->
        route_raw (rawRequest id None (Some (nanoid16 env))) kv'
        = (Throw notFound, kv')).
Proof.
  intros Hm Hown Htok Hs Hkey.
  destruct (updateDocument_run digestSHA256 maxSize env id content ownerToken kv m
              Hs Hm Htok) as (kv' & Hrun & Hag).
  apply written_record_readable in Hag as [Hm' Hc].
  pose proof (truthy_of_normalized _ Hown) as Hraw.
  eexists _, kv'. split; [exact Hrun|].
  assert (Hview : forall viewerToken,
             getDocument id viewerToken kv'
             = (Ok (Some (toView (updatedMetadata digestSHA256 env m content)
                            viewerToken)), kv'))
    by (intros; by apply getDocument_stored).
  split; [|split; [|split; [|split]]].
  - simpl. by rewrite Hraw, Hown.
  - eexists. split; [exact Hm'|]. simpl. by rewrite Hown.
  - intros viewerToken oldKey Hv Hold.
    unfold route_raw, rawRequest, getHeaderToken, bind; simpl.
    rewrite Hview. simpl. rewrite Hraw, Hown. simpl.
    apply strictEq_false in Hv. rewrite Hv. simpl.
    apply strictEq_false in Hold. rewrite Hold.
    by rewrite orb_true_r.
  - intros Hne.
    unfold route_raw, rawRequest, getHeaderToken, bind; simpl.
    rewrite Hview. simpl. rewrite Hraw, Hown. simpl.
    replace (strictEq None (Types.ownerToken m)) with false
      by (symmetry; apply strictEq_false; destruct (Types.ownerToken m); done).
    rewrite (proj2 (strictEq_true _ _) eq_refl).
    destruct (nanoid16 env) as [|k0 ks]; [done|]. simpl.
    rewrite (getVersion_latest id (nanoid10 env) content
               (updatedMetadata digestSHA256 env m content)
               (newVersion digestSHA256 env content)) by done.
    done.
  - intros ->.
    unfold route_raw, rawRequest, getHeaderToken, bind; simpl.
    rewrite Hview. simpl. rewrite Hraw, Hown. simpl.
    replace (strictEq None (Types.ownerToken m)) with false
      by (symmetry; apply strictEq_false; destruct (Types.ownerToken m); done).
    rewrite (proj2 (strictEq_true _ _) eq_refl).
    destruct (nanoid16 env) as [|k0 ks]; [done|]. simpl.
    by rewrite getVersion_empty.
Qed.

End RawKey.

(** C3, where the code departs from it. An update of an owned document to the
    empty content succeeds and stores the raw key drawn during the update,
    and the request that presents this new key is answered 404 instead of
    the (empty) content: [getVersion] takes the empty content for a missing
    one. *)
Theorem new_raw_key_of_empty_update_is_not_served
    (digestSHA256 : list N -> list Byte.byte) (maxSize : Z)
    (env : Ambient) (id : jsstring) (ownerToken : option jsstring)
    (kv : KV) (m : StoredDocumentMetadata) :
  entries kv !! documentKey id = Some (VRecord m) ->
  truthy (normalizeToken (Types.ownerToken m)) = true ->
  normalizeToken (Types.ownerToken m) = normalizeToken ownerToken ->
  (0 <= maxSize)%Z ->
  nanoid16 env <> [] ->
  exists r kv',
    updateDocument digestSHA256 maxSize env id [] ownerToken kv = (Ok r, kv')
    /\ dv_rawAccessKey (fst r) = Some (nanoid16 env)
    /\ (exists m', entries kv' !! documentKey id = Some (VRecord m')
                   /\ rawAccessKey m' = Some (nanoid16 env))
    /\ route_raw (rawRequest id None (Some (nanoid16 env))) kv'
       = (Throw notFound, kv').
Proof.
  intros Hm Hown Htok Hs Hkey.
  destruct (rotated_key_serves_nonempty_content digestSHA256 maxSize env id []
              ownerToken kv m Hm Hown Htok Hs Hkey)
    as (r & kv' & Hrun & Hk & Hm' & _ & _ & Hempty).
  exists r, kv'. auto.
Qed.

Lemma new_raw_key_of_empty_update_is_not_served_witness :
  exists r kv',
    updateDocument digestStub 100 env2 (js "V1StGXR8_Z5j") [] (Some (js "T1")) privateKV
    = (Ok r, kv')
    /\ dv_rawAccessKey (fst r) = Some (js "p0Zr4Yt8Wn3Vb6Cx")
    /\ (exists m', entries kv' !! documentKey (js "V1StGXR8_Z5j") = Some (VRecord m')
                   /\ rawAccessKey m' = Some (js "p0Zr4Yt8Wn3Vb6Cx"))
    /\ route_raw (rawRequest (js "V1StGXR8_Z5j") None (Some (js "p0Zr4Yt8Wn3Vb6Cx"))) kv'
       = (Throw notFound, kv').
Proof.
  apply (new_raw_key_of_empty_update_is_not_served digestStub 100 env2
           (js "V1StGXR8_Z5j") (Some (js "T1")) privateKV
           (createdMetadata digestStub env1 (js "a.md") (js "hello") (Some (js "T1")))).
  - vm_compute. reflexivity.
  - vm_compute. reflexivity.
  - vm_compute. reflexivity.
  - lia.
  - vm_compute. discriminate.
Defined.

(** ** The shape of the namespace *)

Lemma put_fits key value kv :
  fits key value = true -> well_shaped kv -> well_shaped (put key value kv).
Proof.
  intros Hf Hkv k v. simpl. rewrite lookup_insert. case_decide.
  - intros [= <-]. by subst.
  - apply Hkv.
Qed.

Lemma del_fits key kv : well_shaped kv -> well_shaped (del key kv).
Proof.
  intros Hkv k v. simpl. rewrite lookup_delete. case_decide; [done|apply Hkv].
Qed.

Lemma keeps_shape_ret {A} (a : A) : keeps_shape (ret a).
Proof. by intros kv H. Qed.

Lemma keeps_shape_throw {A} e : keeps_shape (@throw A e).
Proof. by intros kv H. Qed.

Lemma keeps_shape_bind {A B} (m : Async A) (k : A -> Async B) :
  keeps_shape m -> (forall a, keeps_shape (k a)) -> keeps_shape (bind m k).
Proof.
  intros Hm Hk kv H. unfold bind. specialize (Hm kv H).
  destruct (m kv) as [[a|e] kv1]; [by apply Hk|done].
Qed.

Lemma keeps_shape_kv_get key : keeps_shape (kv_get key).
Proof. by intros kv H. Qed.

Lemma keeps_shape_kv_put key value :
  fits key value = true -> keeps_shape (kv_put key value).
Proof. intros Hf kv H. by apply put_fits. Qed.

Lemma keeps_shape_kv_delete key : keeps_shape (kv_delete key).
Proof. intros kv H. by apply del_fits. Qed.

Lemma keeps_shape_try_catch {A} (m : Async A) handler :
  keeps_shape m -> (forall e, keeps_shape (handler e)) ->
  keeps_shape (try_catch m handler).
Proof.
  intros Hm Hh kv H. unfold try_catch. specialize (Hm kv H).
  destruct (m kv) as [[a|e] kv1]; [done|by apply Hh].
Qed.

Lemma keeps_shape_for_each {A} (f : A -> Async unit) xs :
  (forall x, keeps_shape (f x)) -> keeps_shape (for_each f xs).
Proof.
  intros Hf. induction xs as [|x xs IH]; simpl; [apply keeps_shape_ret|].
  apply keeps_shape_bind; [apply Hf|done].
Qed.

Create HintDb shape.
#[local] Hint Resolve keeps_shape_ret keeps_shape_throw keeps_shape_kv_get
  keeps_shape_kv_delete keeps_shape_for_each : shape.

Ltac shape :=
  repeat first
    [ apply keeps_shape_bind; [|intros ?]
    | apply keeps_shape_kv_put; reflexivity
    | solve [auto with shape]
    | match goal with
      | |- keeps_shape (match ?x with _ => _ end) => destruct x
      | |- keeps_shape (if ?b then _ else _) => destruct b
      | |- keeps_shape (let '(_, _) := ?p in _) => destruct p
      end ].

Lemma keeps_shape_getRecord id : keeps_shape (getRecord id).
Proof. unfold getRecord. shape. Qed.

Lemma keeps_shape_getIndex key : keeps_shape (getIndex key).
Proof. unfold getIndex. shape. Qed.

Lemma keeps_shape_pushToIndex key id :
  isIndexKey key = true -> keeps_shape (pushToIndex key id).
Proof.
  intros Hk. unfold pushToIndex.
  apply keeps_shape_bind; [apply keeps_shape_getIndex|intros index].
  by apply keeps_shape_kv_put.
Qed.

Lemma keeps_shape_removeFromIndex key id :
  isIndexKey key = true -> keeps_shape (removeFromIndex key id).
Proof.
  intros Hk. unfold removeFromIndex.
  apply keeps_shape_bind; [apply keeps_shape_getIndex|intros index].
  by apply keeps_shape_kv_put.
Qed.

Lemma keeps_shape_updatePublicIndex documentId isPublic :
  keeps_shape (updatePublicIndex documentId isPublic).
Proof.
  unfold updatePublicIndex. destruct isPublic.
  - by apply keeps_shape_pushToIndex.
  - by apply keeps_shape_removeFromIndex.
Qed.

Lemma keeps_shape_touchOwnerIndex token documentId :
  keeps_shape (touchOwnerIndex token documentId).
Proof.
  unfold touchOwnerIndex. destruct token as [[|c t]|]; auto with shape.
  by apply keeps_shape_pushToIndex.
Qed.

#[local] Hint Resolve keeps_shape_getRecord keeps_shape_getIndex
  keeps_shape_updatePublicIndex keeps_shape_touchOwnerIndex : shape.

Lemma keeps_shape_loadViews ids viewerToken :
  keeps_shape (loadViews ids viewerToken).
Proof.
  induction ids as [|id rest IH]; simpl; [apply keeps_shape_ret|].
  apply keeps_shape_bind; [apply keeps_shape_getRecord|intros [m|]]; [|done].
  destruct (_ && _); [done|].
  apply keeps_shape_bind; [done|intros result]. apply keeps_shape_ret.
Qed.

#[local] Hint Resolve keeps_shape_loadViews : shape.

Section Shape.

Variable digestSHA256 : list N -> list Byte.byte.
Variable maxSize : Z.

(** Every method of the store, and the two routes, keep the namespace well
    shaped: records under document keys, arrays under index keys, text under
    version keys. On such a namespace the failure that stands for a slot of
    another shape does not happen. *)
Lemma store_keeps_shape :
  (forall env title content ownerToken,
      keeps_shape (createDocument digestSHA256 maxSize env title content ownerToken))
  /\ (forall env id content ownerToken,
         keeps_shape (updateDocument digestSHA256 maxSize env id content ownerToken))
  /\ (forall id ownerToken, keeps_shape (deleteDocument id ownerToken))
  /\ (forall id viewerToken, keeps_shape (getDocument id viewerToken))
  /\ (forall id versionId, keeps_shape (getVersion id versionId))
  /\ (forall viewerToken limit cursor,
         keeps_shape (listPublicDocuments viewerToken limit cursor))
  /\ (forall ownerToken limit cursor,
         keeps_shape (listOwnerDocuments ownerToken limit cursor))
  /\ (forall request, keeps_shape (route_delete request))
  /\ (forall request, keeps_shape (route_raw request)).
Proof.
  repeat apply conj; intros.
  - unfold createDocument, assertSize, putRecord, putVersion. shape.
  - unfold updateDocument, assertSize, checkOwner, putRecord, putVersion. shape.
  - unfold deleteDocument, checkOwner, deleteRecord, deleteVersion. shape.
  - unfold getDocument. shape.
  - unfold getVersion. shape.
  - unfold listPublicDocuments. shape.
  - unfold listOwnerDocuments. shape.
  - unfold route_delete. destruct (negb _); [apply keeps_shape_throw|].
    apply keeps_shape_try_catch.
    + unfold deleteDocument, checkOwner, deleteRecord, deleteVersion. shape.
    + intros e. shape.
  - unfold route_raw, getDocument, getVersion. shape.
Qed.

End Shape.

Lemma emptyKV_well_shaped : well_shaped emptyKV.
Proof. intros k v. simpl. by rewrite lookup_empty. Qed.

Lemma getRecord_well_shaped id kv :
  well_shaped kv -> exists r, getRecord id kv = (Ok r, kv).
Proof.
  intros H. unfold getRecord, bind, kv_get.
  destruct (entries kv !! documentKey id) as [v|] eqn:E; [|by eexists].
  specialize (H _ _ E). destruct v; [by eexists|discriminate..].
Qed.

(** ** Base64 *)

(** Induction on a list of bytes three at a time, as [b64encode] reads it. *)
Lemma triples_ind {A} (P : list A -> Prop) :
  P [] -> (forall a, P [a]) -> (forall a b, P [a; b]) ->
  (forall a b c rest, P rest -> P (a :: b :: c :: rest)) ->
  forall l, P l.
Proof.
  intros H0 H1 H2 H3 l.
  assert (P l /\ (forall a, P (a :: l)) /\ (forall a b, P (a :: b :: l))) as [H _].
  { induction l as [|x l (IH0 & IH1 & IH2)]; [by auto|].
    split; [apply IH1|]. split; [intros a; apply IH2|]. intros a b. by apply H3. }
  exact H.
Qed.

Lemma b64encode_shape bytes :
  b64encode bytes = map b64char (sextetsOf bytes) ++ paddingOf bytes.
Proof.
  induction bytes as [|a|a b|a b c rest IH] using triples_ind; try reflexivity.
  simpl. by rewrite IH.
Qed.

Lemma b64value_b64char n : (n < 64)%N -> b64value (b64char n) = Some n.
Proof.
  intros Hn. unfold b64char.
  bool_cases; unfold b64value; bool_cases; simpl; try (f_equal; lia); try lia.
Qed.

Lemma b64value_not_whitespace c n :
  b64value c = Some n -> isAsciiWhitespace c = false /\ c <> pad.
Proof.
  intros H. split.
  - unfold isAsciiWhitespace. bool_cases; subst; try discriminate; reflexivity.
  - intros ->. discriminate.
Qed.

Lemma sextetsOf_lt bytes :
  latin1 bytes -> Forall (fun n => (n < 64)%N) (sextetsOf bytes).
Proof.
  unfold latin1.
  induction bytes as [|a|a b|a b c rest IH] using triples_ind; intros H; simpl.
  - constructor.
  - inversion_clear H as [|? ? Ha _]. 
    repeat constructor.
    + apply N.Div0.div_lt_upper_bound. lia.
    + pose proof (N.mod_upper_bound a 4). lia.
  - inversion_clear H as [|? ? Ha H']. inversion_clear H' as [|? ? Hb _].
    repeat constructor.
    + apply N.Div0.div_lt_upper_bound. lia.
    + pose proof (N.mod_upper_bound a 4).
      assert (b / 16 < 16)%N by (apply N.Div0.div_lt_upper_bound; lia). lia.
    + pose proof (N.mod_upper_bound b 16). lia.
  - inversion_clear H as [|? ? Ha H']. inversion_clear H' as [|? ? Hb H''].
    inversion_clear H'' as [|? ? Hc Hrest].
    repeat constructor.
    + apply N.Div0.div_lt_upper_bound. lia.
    + pose proof (N.mod_upper_bound a 4).
      assert (b / 16 < 16)%N by (apply N.Div0.div_lt_upper_bound; lia). lia.
    + pose proof (N.mod_upper_bound b 16).
      assert (c / 64 < 4)%N by (apply N.Div0.div_lt_upper_bound; lia). lia.
    + apply N.mod_upper_bound. lia.
    + by apply IH.
Qed.

Lemma join_4 a : (a / 4 * 4 + a mod 4 = a)%N.
Proof. pose proof (N.div_mod a 4). lia. Qed.

Lemma split_hi x y k : (y < k)%N -> ((x * k + y) / k = x)%N.
Proof.
  intros H. rewrite N.add_comm, N.div_add by lia.
  rewrite N.div_small by done. lia.
Qed.

Lemma split_lo x y k : (y < k)%N -> ((x * k + y) mod k = y)%N.
Proof.
  intros H. rewrite N.add_comm, N.Div0.mod_add. by apply N.mod_small.
Qed.

Lemma decode_first a b :
  (b < 256)%N -> (a / 4 * 4 + (a mod 4 * 16 + b / 16) / 16 = a)%N.
Proof.
  intros Hb. rewrite split_hi by (apply N.Div0.div_lt_upper_bound; lia).
  apply join_4.
Qed.

Lemma decode_first_alone a : (a / 4 * 4 + (a mod 4 * 16) / 16 = a)%N.
Proof. rewrite N.div_mul by lia. apply join_4. Qed.


Lemma b64decode_sextetsOf bytes :
  latin1 bytes -> b64decode (sextetsOf bytes) = bytes.
Proof.
  unfold latin1.
  induction bytes as [|a|a b|a b c rest IH] using triples_ind; intros H; simpl.
  - done.
  - by rewrite decode_first_alone.
  - inversion_clear H as [|? ? Ha H']. inversion_clear H' as [|? ? Hb _].
    assert (b / 16 < 16)%N by (apply N.Div0.div_lt_upper_bound; lia).
    rewrite decode_first by lia.
    rewrite (split_lo (a mod 4) (b / 16) 16) by done.
    rewrite N.div_mul by lia.
    replace (b / 16 * 16 + b mod 16)%N with b
      by (pose proof (N.div_mod b 16); lia).
    done.
  - inversion_clear H as [|? ? Ha H']. inversion_clear H' as [|? ? Hb H''].
    inversion_clear H'' as [|? ? Hc Hrest].
    assert (b / 16 < 16)%N by (apply N.Div0.div_lt_upper_bound; lia).
    assert (c / 64 < 4)%N by (apply N.Div0.div_lt_upper_bound; lia).
    rewrite decode_first by lia.
    rewrite (split_lo (a mod 4) (b / 16) 16) by done.
    rewrite (split_hi (b mod 16) (c / 64) 4) by done.
    rewrite (split_lo (b mod 16) (c / 64) 4) by done.
    rewrite IH by done.
    replace (b / 16 * 16 + b mod 16)%N with b
      by (pose proof (N.div_mod b 16); lia).
    replace (c / 64 * 64 + c mod 64)%N with c
      by (pose proof (N.div_mod c 64); lia).
    done.
Qed.

Lemma mapM_b64value_b64char sextets :
  Forall (fun n => (n < 64)%N) sextets ->
  mapM b64value (map b64char sextets) = Some sextets.
Proof.
  induction 1 as [|n rest Hn _ IH]; simpl; [done|].
  rewrite b64value_b64char by done. simpl. by rewrite IH.
Qed.

Lemma b64char_plain n :
  (n < 64)%N -> isAsciiWhitespace (b64char n) = false /\ b64char n <> pad.
Proof. intros Hn. by apply (b64value_not_whitespace _ n), b64value_b64char. Qed.

Lemma filter_whitespace_encoded bytes :
  latin1 bytes ->
  List.filter (fun c => negb (isAsciiWhitespace c)) (b64encode bytes) = b64encode bytes.
Proof.
  intros H. rewrite b64encode_shape, List.filter_app.
  f_equal.
  - apply sextetsOf_lt in H. induction H as [|n rest Hn _ IH]; simpl; [done|].
    destruct (b64char_plain n Hn) as [-> _]. simpl. by rewrite IH.
  - clear H. induction bytes as [|a|a b|a b c rest IH] using triples_ind; done.
Qed.

(** The three shapes of an encoding, by the number of bytes modulo 3. *)
Lemma encoded_shapes bytes :
  (paddingOf bytes = [] /\ (length (sextetsOf bytes) mod 4 = 0)%nat)
  \/ (paddingOf bytes = [pad; pad] /\ (length (sextetsOf bytes) mod 4 = 2)%nat)
  \/ (paddingOf bytes = [pad] /\ (length (sextetsOf bytes) mod 4 = 3)%nat).
Proof.
  induction bytes as [|a|a b|a b c rest IH] using triples_ind;
    [left; done|right; left; done|right; right; done|].
  assert (length (sextetsOf (a :: b :: c :: rest)) mod 4
          = length (sextetsOf rest) mod 4)%nat as ->.
  { change (length (sextetsOf (a :: b :: c :: rest)))
      with (4 + length (sextetsOf rest))%nat.
    rewrite <- (Nat.Div0.mod_add (length (sextetsOf rest)) 1 4). f_equal. lia. }
  exact IH.
Qed.

Lemma last_b64char_not_pad sextets x :
  Forall (fun n => (n < 64)%N) sextets ->
  last (map b64char sextets) = Some x -> x <> pad.
Proof.
  intros H Hl. apply last_Some in Hl as (front & Hl).
  assert (x ∈ map b64char sextets) as Hin by (rewrite Hl; set_solver).
  apply list_elem_of_In, in_map_iff in Hin as (n & <- & Hin).
  rewrite Forall_forall in H. apply b64char_plain, H. by apply list_elem_of_In.
Qed.

Lemma stripPadding_encoded bytes :
  latin1 bytes ->
  stripPadding (b64encode bytes) = map b64char (sextetsOf bytes).
Proof.
  intros H. rewrite b64encode_shape.
  pose proof (sextetsOf_lt bytes H) as Hlt.
  set (body := map b64char (sextetsOf bytes)).
  assert (Hlen : length body = length (sextetsOf bytes)) by apply length_map.
  unfold stripPadding.
  destruct (encoded_shapes bytes) as [[-> Hm]|[[-> Hm]|[-> Hm]]];
    rewrite length_app, Hlen; simpl length.
  - rewrite app_nil_r, Nat.add_0_r, Hm. simpl.
    destruct (rev body) as [|p1 r] eqn:Hrev; [done|].
    assert (last body = Some p1) as Hlast.
    { rewrite <- (rev_involutive body), Hrev. simpl. by rewrite last_snoc. }
    apply (last_b64char_not_pad _ _ Hlt) in Hlast.
    destruct r as [|p2 r]; by rewrite (proj2 (N.eqb_neq _ _) Hlast).
  - replace ((length (sextetsOf bytes) + 2) mod 4)%nat with 0%nat
      by (rewrite Nat.Div0.add_mod, Hm by lia; reflexivity).
    simpl. rewrite rev_app_distr. simpl. by rewrite rev_involutive.
  - replace ((length (sextetsOf bytes) + 1) mod 4)%nat with 0%nat
      by (rewrite Nat.Div0.add_mod, Hm by lia; reflexivity).
    simpl. rewrite rev_app_distr. simpl.
    destruct (rev body) as [|p2 r] eqn:Hrev.
    + apply (f_equal (@length N)) in Hrev. rewrite length_rev, Hlen in Hrev.
      simpl in Hrev. rewrite Hrev in Hm. discriminate.
    + assert (last body = Some p2) as Hlast.
      { rewrite <- (rev_involutive body), Hrev. simpl. by rewrite last_snoc. }
      apply (last_b64char_not_pad _ _ Hlt) in Hlast.
      rewrite (proj2 (N.eqb_neq _ _) Hlast).
      change (rev r ++ [p2]) with (rev (p2 :: r)).
      by rewrite <- Hrev, rev_involutive.
Qed.

(** [atob] undoes [btoa]. *)
Lemma atob_btoa s encoded : btoa s = Some encoded -> atob encoded = Some s.
Proof.
  unfold btoa. destruct (forallb _ s) eqn:Hall; [|discriminate].
  intros [= <-].
  assert (latin1 s) as H.
  { apply Forall_forall. intros c Hc. rewrite forallb_forall in Hall.
    apply N.leb_le, Hall. by apply list_elem_of_In. }
  unfold atob. rewrite filter_whitespace_encoded, stripPadding_encoded by done.
  rewrite length_map.
  destruct (encoded_shapes s) as [[_ ->]|[[_ ->]|[_ ->]]]; simpl;
    rewrite mapM_b64value_b64char by (by apply sextetsOf_lt);
    by rewrite b64decode_sextetsOf.
Qed.

Lemma btoa_latin1 s : latin1 s -> btoa s = Some (b64encode s).
Proof.
  intros H. unfold btoa.
  replace (forallb _ s) with true; [done|].
  symmetry. apply forallb_forall. intros c Hc. apply N.leb_le.
  unfold latin1 in H. rewrite Forall_forall in H. by apply H, list_elem_of_In.
Qed.

(** ** Splitting and comparing *)

Lemma string_split_nonempty sep s :
  exists piece pieces, string_split sep s = piece :: pieces.
Proof.
  destruct s as [|c rest]; simpl; [eauto|].
  destruct (c =? sep)%N; [eauto|].
  destruct (string_split sep rest); eauto.
Qed.

Lemma string_split_no_separator sep s :
  Forall (fun c => c <> sep) s -> string_split sep s = [s].
Proof.
  induction 1 as [|c rest Hc _ IH]; simpl; [done|].
  by rewrite (proj2 (N.eqb_neq _ _) Hc), IH.
Qed.

Lemma string_split_first sep a b :
  Forall (fun c => c <> sep) a ->
  string_split sep (a ++ sep :: b) = a :: string_split sep b.
Proof.
  induction 1 as [|c rest Hc _ IH]; simpl.
  - by rewrite N.eqb_refl.
  - by rewrite (proj2 (N.eqb_neq _ _) Hc), IH.
Qed.

Lemma string_split_prefix sep a rest piece pieces :
  Forall (fun c => c <> sep) a ->
  string_split sep rest = piece :: pieces ->
  string_split sep (a ++ rest) = (a ++ piece) :: pieces.
Proof.
  intros Ha Hrest. induction Ha as [|c a Hc _ IH]; simpl; [done|].
  by rewrite (proj2 (N.eqb_neq _ _) Hc), IH.
Qed.

Lemma accumulate_zero a : forall b result,
  length a = length b -> accumulate result a b = 0%N -> result = 0%N /\ a = b.
Proof.
  induction a as [|x a IH]; intros [|y b] result Hlen H; simpl in *; try done.
  injection Hlen as Hlen.
  destruct (IH _ _ Hlen H) as [Hr ->].
  apply N.lor_eq_0_iff in Hr as [-> Hxy].
  apply N.lxor_eq in Hxy. by subst.
Qed.

Lemma accumulate_same a : forall result, accumulate result a a = result.
Proof.
  induction a as [|x a IH]; intros result; simpl; [done|].
  by rewrite IH, N.lxor_nilpotent, N.lor_0_r.
Qed.

(** [timingSafeEqual] decides the equality of two strings. *)
Lemma timingSafeEqual_true a b : timingSafeEqual a b = true <-> a = b.
Proof.
  unfold timingSafeEqual. split.
  - destruct (Nat.eqb_spec (length a) (length b)) as [Hlen|]; [|done]. simpl.
    intros H. apply N.eqb_eq in H. by apply accumulate_zero in H as [_ ->].
  - intros ->. rewrite Nat.eqb_refl. simpl. by rewrite accumulate_same.
Qed.

(** ** Hexadecimal and decimal text *)

Lemma hexByte_digits b : Forall (fun c => isHexDigit c = true) (hexByte b).
Proof. destruct b; repeat constructor. Qed.

Lemma toHex_digits bytes : Forall (fun c => isHexDigit c = true) (toHex bytes).
Proof.
  unfold toHex. induction bytes as [|b rest IH]; [constructor|].
  change (concat (map hexByte (b :: rest)))
    with (hexByte b ++ concat (map hexByte rest)).
  apply Forall_app. split; [apply hexByte_digits|exact IH].
Qed.

Lemma toHex_nonempty bytes : bytes <> [] -> toHex bytes <> [].
Proof. destruct bytes; [done|]. discriminate. Qed.

Lemma hex_digit_facts c :
  isHexDigit c = true -> (c <= 255)%N /\ c <> dot /\ c <> dquote.
Proof.
  unfold isHexDigit, dot, dquote. intros H.
  apply orb_true_iff in H as [H|H]; apply andb_true_iff in H as [H1 H2];
    apply N.leb_le in H1, H2; lia.
Qed.

Lemma js_latin1 s : latin1 (js s).
Proof.
  unfold latin1, js. apply Forall_forall. intros c Hc.
  apply list_elem_of_In, in_map_iff in Hc as (a & <- & _).
  pose proof (N_ascii_bounded a). lia.
Qed.

Lemma latin1_app a b : latin1 a -> latin1 b -> latin1 (a ++ b).
Proof. intros Ha Hb. apply Forall_app. by split. Qed.

Lemma toHex_latin1 bytes : latin1 (toHex bytes).
Proof.
  eapply Forall_impl; [apply toHex_digits|].
  intros c Hc. by apply hex_digit_facts in Hc as [? _].
Qed.

Lemma js_cons a s : js (String a s) = N_of_ascii a :: js s.
Proof. reflexivity. Qed.

Lemma digits_no_dot d : Forall (fun c => c <> dot) (js (NilEmpty.string_of_uint d)).
Proof.
  induction d; simpl NilEmpty.string_of_uint; try rewrite js_cons;
    constructor; try done; discriminate.
Qed.

Lemma numberToString_no_dot n : Forall (fun c => c <> dot) (numberToString n).
Proof.
  unfold numberToString, NilZero.string_of_int, NilZero.string_of_uint.
  destruct (Z.to_int n) as [d|d].
  - destruct d; try apply digits_no_dot. repeat constructor. discriminate.
  - rewrite js_cons. constructor; [discriminate|].
    destruct d; try apply digits_no_dot. repeat constructor. discriminate.
Qed.

Lemma quoteJSON_plain s :
  Forall (fun c => isPlainChar c = true) s -> quoteJSON s = s.
Proof.
  induction 1 as [|c rest Hc _ IH]; simpl; [done|].
  unfold isPlainChar, dquote, backslash, dot in Hc.
  repeat (apply andb_true_iff in Hc as [Hc ?]).
  apply N.leb_le in Hc.
  repeat match goal with
         | H : (_ <=? _)%N = true |- _ => apply N.leb_le in H
         | H : negb (_ =? _)%N = true |- _ => apply negb_true_iff, N.eqb_neq in H
         end.
  unfold dquote, backslash, isHighSurrogate, isLowSurrogate.
  repeat match goal with
         | |- context [(?a =? ?b)%N] =>
             rewrite (proj2 (N.eqb_neq a b)) by lia
         | |- context [(?a <? ?b)%N] =>
             rewrite (proj2 (N.ltb_ge a b)) by lia
         end.
  rewrite (proj2 (N.leb_gt 55296 c)) by lia.
  rewrite (proj2 (N.leb_gt 56320 c)) by lia.
  simpl. by rewrite IH.
Qed.

Lemma plain_facts s :
  Forall (fun c => isPlainChar c = true) s ->
  latin1 s /\ Forall (fun c => c <> dot) s.
Proof.
  intros H. split; (eapply Forall_impl; [exact H|]); intros c Hc;
    unfold isPlainChar, dquote, backslash, dot in Hc;
    repeat (apply andb_true_iff in Hc as [Hc ?]);
    repeat match goal with
           | H : (_ <=? _)%N = true |- _ => apply N.leb_le in H
           | H : negb (_ =? _)%N = true |- _ => apply negb_true_iff, N.eqb_neq in H
           end; unfold dot; lia.
Qed.

(** The text of a payload whose id is plain: Latin-1 and without dot. *)
Lemma JSON_stringify_plain payload :
  Forall (fun c => isPlainChar c = true) (documentId payload) ->
  latin1 (JSON_stringify payload)
  /\ Forall (fun c => c <> dot) (JSON_stringify payload)
  /\ JSON_stringify payload <> [].
Proof.
  intros H. unfold JSON_stringify, quoted. rewrite quoteJSON_plain by done.
  apply plain_facts in H as [Hl Hd].
  split; [|split; [|discriminate]].
  - repeat first [apply latin1_app | apply js_latin1 | exact Hl
                  | apply Forall_cons; split; [unfold dquote; lia|]
                  | apply (js_latin1 EmptyString)].
  - repeat first [apply Forall_app; split | exact Hd
                  | apply numberToString_no_dot
                  | apply Forall_cons; split; [discriminate|]
                  | apply Forall_nil_2 ].
Qed.

(** ** Share tokens *)

Section ShareTokens.

Variable hmacSHA256 : list N -> list N -> list Byte.byte.
Variable JSON_parse : jsstring -> option ShareTokenPayload.

Lemma truthy_nonempty (s : jsstring) : s <> [] -> truthy (Some s) = true.
Proof. by destruct s. Qed.

Lemma sign_hex data secret :
  Forall (fun c => isHexDigit c = true) (sign hmacSHA256 data secret).
Proof. apply toHex_digits. Qed.

(** What [verifyShareToken] does once the token is decoded into a text with
    one dot. *)
Lemma verifyShareToken_decoded dateNow token secret data signature :
  atob token = Some (data ++ dot :: signature) ->
  Forall (fun c => c <> dot) data ->
  Forall (fun c => c <> dot) signature ->
  verifyShareToken hmacSHA256 JSON_parse dateNow token secret
  = if negb (truthy (Some data)) || negb (truthy (Some signature)) then None
    else if negb (timingSafeEqual signature (sign hmacSHA256 data secret)) then None
    else match JSON_parse data with
         | None => None
         | Some payload =>
             if (expiresAt payload <? dateNow)%Z then None else Some payload
         end.
Proof.
  intros Hd Hdata Hsig. unfold verifyShareToken. rewrite Hd.
  rewrite string_split_first, string_split_no_separator by done.
  reflexivity.
Qed.

(** A token that [atob] cannot decode is rejected. *)
Lemma verifyShareToken_undecodable dateNow token secret :
  atob token = None ->
  verifyShareToken hmacSHA256 JSON_parse dateNow token secret = None.
Proof. intros H. unfold verifyShareToken. by rewrite H. Qed.

(** A decoded text without a dot is rejected. *)
Lemma verifyShareToken_no_dot dateNow token secret decoded :
  atob token = Some decoded ->
  Forall (fun c => c <> dot) decoded ->
  verifyShareToken hmacSHA256 JSON_parse dateNow token secret = None.
Proof.
  intros H Hd. unfold verifyShareToken. rewrite H.
  rewrite string_split_no_separator by done. simpl.
  by rewrite orb_true_r.
Qed.

(** A signature that is not the one of the data is rejected, whatever the
    data. *)
Lemma verifyShareToken_wrong_signature dateNow token secret data signature :
  atob token = Some (data ++ dot :: signature) ->
  Forall (fun c => c <> dot) data ->
  Forall (fun c => c <> dot) signature ->
  signature <> sign hmacSHA256 data secret ->
  verifyShareToken hmacSHA256 JSON_parse dateNow token secret = None.
Proof.
  intros Hd Hdata Hsig Hne.
  rewrite (verifyShareToken_decoded _ _ _ data signature) by done.
  destruct (negb (truthy (Some data)) || negb (truthy (Some signature))); [done|].
  replace (timingSafeEqual signature (sign hmacSHA256 data secret)) with false;
    [done|].
  symmetry. apply not_true_is_false. by rewrite timingSafeEqual_true.
Qed.

(** Data that [JSON.parse] refuses is rejected, and so is a payload that
    expired, even under a right signature. *)
Lemma verifyShareToken_unparsable_or_expired dateNow token secret data :
  atob token = Some (data ++ dot :: sign hmacSHA256 data secret) ->
  Forall (fun c => c <> dot) data ->
  match JSON_parse data with
  | None => True
  | Some payload => (expiresAt payload < dateNow)%Z
  end ->
  verifyShareToken hmacSHA256 JSON_parse dateNow token secret = None.
Proof.
  intros Hd Hdata Hp.
  rewrite (verifyShareToken_decoded _ _ _ data (sign hmacSHA256 data secret));
    [|done..|].
  - destruct (negb (truthy (Some data)) || negb (truthy (Some _))); [done|].
    destruct (negb (timingSafeEqual _ _)); [done|].
    destruct (JSON_parse data) as [payload|]; [|done].
    by rewrite (proj2 (Z.ltb_lt _ _) Hp).
  - eapply Forall_impl; [apply sign_hex|].
    intros c Hc. by apply hex_digit_facts in Hc as (_ & ? & _).
Qed.

(** The token of a payload with a plain id: [createShareToken] returns one,
    and [verifyShareToken] returns the payload while it has not expired and
    nothing once it has. *)
Lemma verify_created_token payload secret dateNow :
  Forall (fun c => isPlainChar c = true) (documentId payload) ->
  hmacSHA256 (TextEncoder_encode secret)
    (TextEncoder_encode (JSON_stringify payload)) <> [] ->
  JSON_parse (JSON_stringify payload) = Some payload ->
  exists token,
    createShareToken hmacSHA256 payload secret = Some token
    /\ verifyShareToken hmacSHA256 JSON_parse dateNow token secret
       = if (expiresAt payload <? dateNow)%Z then None else Some payload.
Proof.
  intros Hplain Hmac Hparse.
  destruct (JSON_stringify_plain payload Hplain) as (Hl & Hdot & Hne).
  assert (Hsig : Forall (fun c => c <> dot)
                   (sign hmacSHA256 (JSON_stringify payload) secret)).
  { eapply Forall_impl; [apply sign_hex|].
    intros c Hc. by apply hex_digit_facts in Hc as (_ & ? & _). }
  assert (Hlatin : latin1 (JSON_stringify payload ++ js "."
                            ++ sign hmacSHA256 (JSON_stringify payload) secret)).
  { apply latin1_app; [done|]. apply latin1_app; [apply js_latin1|].
    apply toHex_latin1. }
  unfold createShareToken. rewrite btoa_latin1 by done.
  eexists. split; [reflexivity|].
  rewrite (verifyShareToken_decoded _ _ _ (JSON_stringify payload)
             (sign hmacSHA256 (JSON_stringify payload) secret));
    [|by apply atob_btoa, btoa_latin1|done|done].
  rewrite !truthy_nonempty by (done || by apply toHex_nonempty).
  rewrite (proj2 (timingSafeEqual_true _ _) eq_refl). simpl.
  by rewrite Hparse.
Qed.

(** C8, where the code departs from it. For the payload whose id is [a.b],
    whatever its expiry, the secret and the time of the check:
    [createShareToken] returns a token and [verifyShareToken] rejects it,
    because the text is cut at the dot of the id and the signature is looked
    for in the middle of the payload. *)
Theorem dotted_id_token_is_rejected
    (expiresAt : Z) (secret : jsstring) (dateNow : Z) :
  exists token,
    createShareToken hmacSHA256 (dottedPayload expiresAt) secret = Some token
    /\ verifyShareToken hmacSHA256 JSON_parse dateNow token secret = None.
Proof.
  set (signature := sign hmacSHA256 (JSON_stringify (dottedPayload expiresAt)) secret).
  set (tail := (numberToString expiresAt ++ js "}") ++ js "." ++ signature).
  set (head := js "{" ++ quoted (js "documentId") ++ js ":" ++ [dquote] ++ js "a").
  set (middle := js "b" ++ [dquote] ++ js "," ++ quoted (js "expiresAt") ++ js ":").
  assert (Hsignature : latin1 signature) by apply toHex_latin1.
  assert (Htext : JSON_stringify (dottedPayload expiresAt) ++ js "." ++ signature
                  = head ++ dot :: middle ++ tail).
  { unfold tail, head, middle, JSON_stringify, dottedPayload. clearbody signature.
    cbn [Types.expiresAt Types.documentId].
    generalize (numberToString expiresAt). intros num.
    vm_compute. reflexivity. }
  assert (Hhead : Forall (fun c => c <> dot) head)
    by (apply (bool_decide_unpack _); vm_compute; exact I).
  assert (Hmiddle : Forall (fun c => c <> dot) middle)
    by (apply (bool_decide_unpack _); vm_compute; exact I).
  assert (Hl : latin1 (JSON_stringify (dottedPayload expiresAt) ++ js "." ++ signature)).
  { rewrite Htext.
    apply latin1_app; [apply (bool_decide_unpack _); vm_compute; exact I|].
    apply Forall_cons. split; [unfold dot; lia|].
    apply latin1_app; [apply (bool_decide_unpack _); vm_compute; exact I|].
    unfold tail. repeat apply latin1_app; try apply js_latin1. done. }
  unfold createShareToken. fold signature. rewrite btoa_latin1 by done.
  eexists. split; [reflexivity|].
  unfold verifyShareToken. rewrite (atob_btoa _ _ (btoa_latin1 _ Hl)), Htext.
  rewrite string_split_first by done.
  destruct (string_split_nonempty dot tail) as (piece & pieces & Htail).
  rewrite (string_split_prefix dot middle tail piece pieces) by done.
  change ((head :: (middle ++ piece) :: pieces) !! 0%nat) with (Some head).
  change ((head :: (middle ++ piece) :: pieces) !! 1%nat) with (Some (middle ++ piece)).
  change (truthy (Some head)) with true.
  change (truthy (Some (middle ++ piece))) with true.
  change (default [] (Some head)) with head.
  change (default [] (Some (middle ++ piece))) with (middle ++ piece).
  replace (timingSafeEqual (middle ++ piece) (sign hmacSHA256 head secret)) with false;
    [done|].
  symmetry. apply not_true_is_false. rewrite timingSafeEqual_true. intros Heq.
  pose proof (sign_hex head secret) as Hhex. rewrite <- Heq in Hhex.
  apply Forall_app in Hhex as [Hhex _].
  revert Hhex. apply (bool_decide_unpack _). vm_compute. exact I.
Qed.

End ShareTokens.

(** ** The end-to-end scenario of the specification *)

(** A public document [a.md] with content [hello]: the view is neither private
    nor owned and has one version; after an update to [hello2] it has two
    versions and the first one has size 6. *)
Example public_document_scenario :
  let created := getDocument (js "V1StGXR8_Z5j") None publicKV in
  let updated :=
    snd (updateDocument digestStub 100 env2 (js "V1StGXR8_Z5j") (js "hello2") None
           publicKV) in
  (exists view, fst created = Ok (Some view)
                /\ isPrivate view = false /\ isOwner view = false
                /\ length (dv_versions view) = 1%nat)
  /\ (exists view, fst (getDocument (js "V1StGXR8_Z5j") None updated) = Ok (Some view)
                   /\ length (dv_versions view) = 2%nat
                   /\ v_size <$> head (dv_versions view) = Some 6%Z).
Proof. split; eexists; repeat split; vm_compute; reflexivity. Qed.

(** A private document of the token [T1]: the view is private; the raw
    content is refused to a wrong token without a raw key and served to the
    right raw key. *)
Example private_document_scenario :
  (exists view, fst (getDocument (js "V1StGXR8_Z5j") (Some (js "T2")) privateKV)
                = Ok (Some view)
                /\ isPrivate view = true /\ isOwner view = false)
  /\ fst (route_raw (rawRequest (js "V1StGXR8_Z5j") (Some (js "T2")) None) privateKV)
     = Throw (forbidden "owner token required")
  /\ fst (route_raw (rawRequest (js "V1StGXR8_Z5j") None (Some (js "Uakgb_J5m9g-0JDM")))
            privateKV)
     = Ok {| body := js "hello"; filename := js "a.md.txt" |}.
Proof.
  split; [eexists; repeat split; vm_compute; reflexivity|].
  split; vm_compute; reflexivity.
Qed.

(** The round trip on the sample payload, with the stand-ins for HMAC and
    [JSON.parse]: accepted at its expiry time, rejected one millisecond later. *)
Example sample_token_round_trip :
  exists token,
    createShareToken hmacStub samplePayload (js "default-secret") = Some token
    /\ verifyShareToken hmacStub parseStub 1714561200000 token (js "default-secret")
       = Some samplePayload
    /\ verifyShareToken hmacStub parseStub 1714561200001 token (js "default-secret")
       = None.
Proof.
  destruct (verify_created_token hmacStub parseStub samplePayload
              (js "default-secret") 1714561200000) as (token & Hc & Hv).
  - apply (bool_decide_unpack _). vm_compute. exact I.
  - vm_compute. discriminate.
  - vm_compute. reflexivity.
  - exists token. split; [exact Hc|]. split; [exact Hv|].
    destruct (verify_created_token hmacStub parseStub samplePayload
                (js "default-secret") 1714561200001) as (token' & Hc' & Hv').
    + apply (bool_decide_unpack _). vm_compute. exact I.
    + vm_compute. discriminate.
    + vm_compute. reflexivity.
    + rewrite Hc in Hc'. injection Hc' as <-. exact Hv'.
Qed.
